(** * LBANN data readers and communicator: a shallow embedding

    This development embeds the mini-batch cursor and index-set logic of
    [lbann::DataReader] (include/lbann/data_readers/lbann_data_reader.hpp),
    the ImageNet reader built on it
    (src/data_readers/lbann_data_reader_imagenet.cpp) and the traffic
    accounting of [lbann::lbann_comm] (include/lbann/lbann_comm.hpp), and
    proves properties of them.

    Conventions.
    - A C++ [int] is a [Z].  Signed arithmetic that overflows has no defined
      behaviour in C++, so [+], [-] and [*] on [int] are the operations of
      [Z]; [/] on [int] is [Z.quot] and is undefined for a zero divisor.
    - A [size_t] is a [Z] in [0, 2^64); arithmetic on it wraps modulo 2^64.
    - Conversions between integer types are written out: [to_int] for the
      cast [(int)], [to_size_t] for an implicit conversion to [size_t],
      [to_long] for the cast [(long)].
    - A [std::vector<int>] is a [list Z].
    - A [double] is an IEEE 754 binary64 number, a [spec_float] of the
      Standard Library with precision 53 and maximal exponent 1024; a
      product of doubles is rounded to the nearest double, ties to even.
      [rint] rounds the rational value of a number to the nearest integer,
      ties to even (the default IEEE rounding direction).
    - The process-wide generator behind [get_generator()] is threaded
      through every function that shuffles. *)

From Stdlib Require Import ZArith QArith Qround Lia Lqa String SpecFloat.
From stdpp Require Import base list sorting gmap strings.

Local Open Scope Z_scope.

(** ** Machine integers and conversions *)

Module CInt.

Definition INT_MAX : Z := 2 ^ 31 - 1.
Definition SIZE_MOD : Z := 2 ^ 64.
Definition LONG_MIN : Z := - 2 ^ 63.
Definition LONG_MAX : Z := 2 ^ 63 - 1.

(** The cast [(int) x] of an unsigned or wider value: reduction modulo
    2^32 into the signed range. *)
Definition to_int (x : Z) : Z := (x + 2 ^ 31) mod 2 ^ 32 - 2 ^ 31.

(** Conversion of an integer value to [size_t]. *)
Definition to_size_t (x : Z) : Z := x mod SIZE_MOD.

(** The cast [(long) x] of a [size_t]. *)
Definition to_long (x : Z) : Z := (x + 2 ^ 63) mod SIZE_MOD - 2 ^ 63.

(** [rint] of <cmath> in the default rounding direction. *)
Definition rint (x : Q) : Z :=
  let f := Qfloor x in
  match (x - inject_Z f ?= 1 # 2)%Q with
  | Lt => f
  | Gt => f + 1
  | Eq => if Z.even f then f else f + 1
  end.

(** The conversion of an [int] to [double], which is exact. *)
Definition double_of_int (z : Z) : spec_float :=
  binary_normalize 53 1024 z 0 false.

(** [x * y] on [double]: the product rounded to the nearest double. *)
Definition double_mul (x y : spec_float) : spec_float := SFmul 53 1024 x y.

(** [x / y] on [double]. *)
Definition double_div (x y : spec_float) : spec_float := SFdiv 53 1024 x y.

(** The rational value of a double; a NaN and the infinities have
    none. *)
Definition double_value (x : spec_float) : option Q :=
  match x with
  | S754_zero _ => Some 0%Q
  | S754_finite s m e =>
      Some (inject_Z (if s then Z.neg m else Z.pos m) * Qpower 2 e)%Q
  | S754_infinity _ => None
  | S754_nan => None
  end.

(** [rint] of a double, as the integer that the result denotes: [rint]
    yields an integral double, or the NaN or infinity it was given, which
    no integer type can take. *)
Definition rint_double (x : spec_float) : option Z :=
  match double_value x with
  | Some q => Some (rint q)
  | None => None
  end.

End CInt.

Import CInt.

(** ** Results of fallible code *)

(** A call returns, throws [lbann_exception] with a message, or steps
    outside defined behaviour (division by zero, an out-of-range read). *)
Inductive outcome (A : Type) : Type :=
  | Ret (a : A)
  | Throw (msg : string)
  | Undefined.

Arguments Ret {A} a.
Arguments Throw {A} msg.
Arguments Undefined {A}.

#[global] Instance outcome_ret : MRet outcome := fun A a => Ret a.
#[global] Instance outcome_bind : MBind outcome := fun A B f m =>
  match m with
  | Ret a => f a
  | Throw msg => Throw msg
  | Undefined => Undefined
  end.

(** [a / b] on [int]. *)
Definition int_div (a b : Z) : outcome Z :=
  if b =? 0 then Undefined else Ret (a ÷ b).

(** Modelled from the spec: the macro [__MIN] of lbann_base.hpp, which is
    not part of the sources at hand; the spec has [select_subset] "clamp
    max_count to current |used|". *)
Definition MIN (a b : Z) : Z := if a <? b then a else b.

(** ** The communicator *)

Module Comm.

(** The fields of [lbann_comm] that the accounting and the data
    distribution read or write.  [rank_in_world] stands for
    [mpi::Rank(mpi::COMM_WORLD)]. *)
Record lbann_comm : Type := mk_lbann_comm {
  num_models : Z;
  procs_per_model : Z;
  model_rank : Z;
  rank_in_model : Z;
  rank_in_world : Z;
  num_model_barriers : Z;
  num_intermodel_barriers : Z;
  num_global_barriers : Z;
  bytes_sent : Z;
  bytes_received : Z
}.

Definition get_model_rank (c : lbann_comm) : Z := model_rank c.
Definition get_rank_in_model (c : lbann_comm) : Z := rank_in_model c.
Definition get_rank_in_world (c : lbann_comm) : Z := rank_in_world c.
Definition get_world_rank (c : lbann_comm) (model rank : Z) : Z :=
  procs_per_model c * model + rank.
Definition get_model_master (c : lbann_comm) : Z := 0.
Definition get_intermodel_master (c : lbann_comm) : Z := 0.
Definition get_world_master (c : lbann_comm) : Z := 0.
Definition am_model_master (c : lbann_comm) : bool :=
  get_rank_in_model c =? get_model_master c.
Definition am_world_master (c : lbann_comm) : bool :=
  get_rank_in_world c =? get_world_master c.
Definition get_num_models (c : lbann_comm) : Z := num_models c.
Definition get_procs_per_model (c : lbann_comm) : Z := procs_per_model c.
Definition get_bytes_sent (c : lbann_comm) : Z := bytes_sent c.
Definition get_bytes_received (c : lbann_comm) : Z := bytes_received c.

(** [bytes_sent += n] and [bytes_received += n] on [size_t] counters. *)
Definition add_bytes_sent (n : Z) (c : lbann_comm) : lbann_comm :=
  mk_lbann_comm (num_models c) (procs_per_model c) (model_rank c)
    (rank_in_model c) (rank_in_world c) (num_model_barriers c)
    (num_intermodel_barriers c) (num_global_barriers c)
    (to_size_t (bytes_sent c + n)) (bytes_received c).

Definition add_bytes_received (n : Z) (c : lbann_comm) : lbann_comm :=
  mk_lbann_comm (num_models c) (procs_per_model c) (model_rank c)
    (rank_in_model c) (rank_in_world c) (num_model_barriers c)
    (num_intermodel_barriers c) (num_global_barriers c)
    (bytes_sent c) (to_size_t (bytes_received c + n)).

Definition reset_stats_counters (c : lbann_comm) : lbann_comm :=
  mk_lbann_comm (num_models c) (procs_per_model c) (model_rank c)
    (rank_in_model c) (rank_in_world c) 0 0 0 0 0.

(** Each primitive below is the effect of one call on the calling
    process: its counters after the call.  The transfer itself is done by
    MPI; [sizeof_T] is [sizeof(T)] of the template instance.  A product
    [sizeof(T) * count] with [count] an [int] is taken in [size_t]. *)

Definition intermodel_broadcast (sizeof_T root : Z) (c : lbann_comm) : lbann_comm :=
  if get_rank_in_model c =? root then add_bytes_sent sizeof_T c
  else add_bytes_received sizeof_T c.

Definition model_broadcast (sizeof_T root : Z) (c : lbann_comm) : lbann_comm :=
  if get_rank_in_model c =? root then add_bytes_sent sizeof_T c
  else add_bytes_received sizeof_T c.

(** [intermodel_gather(T send, int root)], the non-root side. *)
Definition intermodel_gather_send (sizeof_T root : Z) (c : lbann_comm) : lbann_comm :=
  add_bytes_sent sizeof_T c.

(** [intermodel_gather(T send, std::vector<T>& recv)], the root side. *)
Definition intermodel_gather_root (sizeof_T : Z) (c : lbann_comm) : lbann_comm :=
  add_bytes_received (to_size_t (sizeof_T * to_size_t (get_num_models c - 1))) c.

(** [model_reduce(T send, int root, op)], the non-root side. *)
Definition model_reduce_send (sizeof_T root : Z) (c : lbann_comm) : lbann_comm :=
  add_bytes_sent sizeof_T c.

(** [model_reduce(T send, op)], the root side. *)
Definition model_reduce_root (sizeof_T : Z) (c : lbann_comm) : lbann_comm :=
  add_bytes_received (to_size_t (sizeof_T * to_size_t (get_procs_per_model c - 1))) c.

(** [model_allreduce(T send, op)]. *)
Definition model_allreduce (sizeof_T : Z) (c : lbann_comm) : lbann_comm :=
  add_bytes_received
    (to_size_t (sizeof_T * to_size_t (get_procs_per_model c - 1)))
    (add_bytes_sent sizeof_T c).

(** [send(const T* data, int count, int model, int rank)]. *)
Definition send (sizeof_T count model rank : Z) (c : lbann_comm) : lbann_comm :=
  add_bytes_sent (to_size_t (sizeof_T * to_size_t count)) c.

(** [recv(T* data, int count, int model, int rank)]. *)
Definition recv (sizeof_T count model rank : Z) (c : lbann_comm) : lbann_comm :=
  add_bytes_received (to_size_t (sizeof_T * to_size_t count)) c.

(** [broadcast(T* data, int count, std::vector<int>& dests, int root)]:
    the group and the communicator are created, used for
    [mpi::Broadcast] and freed; no member of the object is written. *)
Definition broadcast (sizeof_T count : Z) (dests : list Z) (root : Z)
    (c : lbann_comm) : lbann_comm :=
  let ranks := root :: dests in
  c.

(** [intermodel_gather(T* send, int count, int root)] and
    [intermodel_gather(T* send, int count, T* recv)]. *)
Definition intermodel_gather_array_send (sizeof_T count root : Z)
    (c : lbann_comm) : lbann_comm :=
  add_bytes_sent (to_size_t (sizeof_T * to_size_t count)) c.

Definition intermodel_gather_array_root (sizeof_T count : Z) (c : lbann_comm) :
    lbann_comm :=
  add_bytes_received
    (to_size_t (to_size_t (sizeof_T * to_size_t count)
                * to_size_t (get_num_models c - 1))) c.

(** [intermodel_reduce(T send, int root, op)] and
    [intermodel_reduce(T send, op)]. *)
Definition intermodel_reduce_send (sizeof_T root : Z) (c : lbann_comm) : lbann_comm :=
  add_bytes_sent sizeof_T c.

Definition intermodel_reduce_root (sizeof_T : Z) (c : lbann_comm) : lbann_comm :=
  add_bytes_received (to_size_t (sizeof_T * to_size_t (get_num_models c - 1))) c.

(** [model_reduce(T* send, int count, int root, op)] and
    [model_reduce(T* send, int count, T* recv, op)]. *)
Definition model_reduce_array_send (sizeof_T count root : Z) (c : lbann_comm) :
    lbann_comm :=
  add_bytes_sent (to_size_t (sizeof_T * to_size_t count)) c.

Definition model_reduce_array_root (sizeof_T count : Z) (c : lbann_comm) :
    lbann_comm :=
  add_bytes_received
    (to_size_t (to_size_t (sizeof_T * to_size_t count)
                * to_size_t (get_procs_per_model c - 1))) c.

(** [model_allreduce(T* send, int count, T* recv, op)]. *)
Definition model_allreduce_array (sizeof_T count : Z) (c : lbann_comm) :
    lbann_comm :=
  add_bytes_received
    (to_size_t (to_size_t (to_size_t count * sizeof_T)
                * to_size_t (get_procs_per_model c - 1)))
    (add_bytes_sent (to_size_t (to_size_t count * sizeof_T)) c).

(** [nb_send(data, count, model, rank, req)], [nb_recv(data, count, model,
    rank, req)] and the receives from any source, [recv(data, count)] and
    [nb_recv(data, count, req)]. *)
Definition nb_send (sizeof_T count model rank : Z) (c : lbann_comm) : lbann_comm :=
  add_bytes_sent (to_size_t (sizeof_T * to_size_t count)) c.

Definition nb_recv (sizeof_T count model rank : Z) (c : lbann_comm) : lbann_comm :=
  add_bytes_received (to_size_t (sizeof_T * to_size_t count)) c.

Definition recv_any (sizeof_T count : Z) (c : lbann_comm) : lbann_comm :=
  add_bytes_received (to_size_t (sizeof_T * to_size_t count)) c.

Definition nb_recv_any (sizeof_T count : Z) (c : lbann_comm) : lbann_comm :=
  add_bytes_received (to_size_t (sizeof_T * to_size_t count)) c.

(** A rooted collective call: the root makes one call, every other
    process of the group the other. *)
Definition rooted (at_root at_other : lbann_comm → lbann_comm) (root : Z)
    (group : list lbann_comm) : list lbann_comm :=
  (fun c => if get_rank_in_model c =? root then at_root c else at_other c)
    <$> group.

(** A collective call: every process of a group makes the same call. *)
Definition collective (f : lbann_comm → lbann_comm) (group : list lbann_comm) :
    list lbann_comm :=
  f <$> group.

(** Sum of a counter over a group of processes. *)
Definition total (counter : lbann_comm → Z) (group : list lbann_comm) : Z :=
  foldr (fun c acc => counter c + acc) 0 group.

End Comm.

(** ** The generator behind [std::shuffle] *)

(** [std::shuffle(first, last, get_generator())] belongs to the C++
    library: it consumes the process-wide Mersenne Twister and leaves the
    range permuted.  The interface records exactly that. *)
Class Generator : Type := {
  rng_gen : Type;
  std_shuffle : rng_gen → list Z → rng_gen * list Z;
  std_shuffle_perm : ∀ g l, (std_shuffle g l).2 ≡ₚ l
}.

(** [std::sort] on a [std::vector<int>]: the ascending rearrangement. *)
Definition std_sort (l : list Z) : list Z := merge_sort Z.le l.

(** ** The base data reader *)

Module Reader.

Import Comm.

Record DataReader : Type := mkDataReader {
  BatchSize : Z;
  CurrentPos : Z;
  m_shuffle : Z;
  m_stride : Z;
  m_base_offset : Z;
  m_model_offset : Z;
  m_use_alt_last_mini_batch_size : bool;
  m_last_mini_batch_threshold : Z;
  m_last_mini_batch_size : Z;
  m_last_mini_batch_stride : Z;
  ShuffledIndices : list Z;
  m_unused_indices : list Z
}.

(** [DataReader(int batchSize, bool shuffle)]. *)
Definition DataReader_new (batchSize : Z) (shuffle : bool) : DataReader :=
  mkDataReader batchSize 0 (if shuffle then 1 else 0) batchSize 0 0 false
    0 batchSize 0 [] [].

(** Assignments to single members. *)
Definition set_CurrentPos (v : Z) (r : DataReader) : DataReader :=
  mkDataReader (BatchSize r) v (m_shuffle r) (m_stride r) (m_base_offset r)
    (m_model_offset r) (m_use_alt_last_mini_batch_size r)
    (m_last_mini_batch_threshold r) (m_last_mini_batch_size r)
    (m_last_mini_batch_stride r) (ShuffledIndices r) (m_unused_indices r).

Definition set_offsets (base_offset stride model_offset : Z) (r : DataReader) :
    DataReader :=
  mkDataReader (BatchSize r) (CurrentPos r) (m_shuffle r) stride base_offset
    model_offset (m_use_alt_last_mini_batch_size r)
    (m_last_mini_batch_threshold r) (m_last_mini_batch_size r)
    (m_last_mini_batch_stride r) (ShuffledIndices r) (m_unused_indices r).

Definition set_use_alt (b : bool) (r : DataReader) : DataReader :=
  mkDataReader (BatchSize r) (CurrentPos r) (m_shuffle r) (m_stride r)
    (m_base_offset r) (m_model_offset r) b
    (m_last_mini_batch_threshold r) (m_last_mini_batch_size r)
    (m_last_mini_batch_stride r) (ShuffledIndices r) (m_unused_indices r).

Definition set_last_mini_batch (threshold size stride : Z) (r : DataReader) :
    DataReader :=
  mkDataReader (BatchSize r) (CurrentPos r) (m_shuffle r) (m_stride r)
    (m_base_offset r) (m_model_offset r) (m_use_alt_last_mini_batch_size r)
    threshold size stride (ShuffledIndices r) (m_unused_indices r).

Definition set_ShuffledIndices (l : list Z) (r : DataReader) : DataReader :=
  mkDataReader (BatchSize r) (CurrentPos r) (m_shuffle r) (m_stride r)
    (m_base_offset r) (m_model_offset r) (m_use_alt_last_mini_batch_size r)
    (m_last_mini_batch_threshold r) (m_last_mini_batch_size r)
    (m_last_mini_batch_stride r) l (m_unused_indices r).

Definition set_unused_indices (l : list Z) (r : DataReader) : DataReader :=
  mkDataReader (BatchSize r) (CurrentPos r) (m_shuffle r) (m_stride r)
    (m_base_offset r) (m_model_offset r) (m_use_alt_last_mini_batch_size r)
    (m_last_mini_batch_threshold r) (m_last_mini_batch_size r)
    (m_last_mini_batch_stride r) (ShuffledIndices r) l.

(** [(int) ShuffledIndices.size()]. *)
Definition getNumData (r : DataReader) : Z :=
  to_int (Z.of_nat (length (ShuffledIndices r))).

Definition get_num_unused_data (r : DataReader) : Z :=
  to_int (Z.of_nat (length (m_unused_indices r))).

Definition getPosition (r : DataReader) : Z := CurrentPos r.

Definition position_valid (r : DataReader) : bool :=
  CurrentPos r <? getNumData r.

Definition getBatchSize (r : DataReader) : Z :=
  if m_use_alt_last_mini_batch_size r
     && (CurrentPos r >=? m_last_mini_batch_threshold r)
  then m_last_mini_batch_size r
  else BatchSize r.

Definition get_next_position (r : DataReader) : Z :=
  if m_use_alt_last_mini_batch_size r
     && (CurrentPos r + m_stride r >? m_last_mini_batch_threshold r)
  then CurrentPos r + m_last_mini_batch_stride r
  else CurrentPos r + m_stride r.

Definition swap_used_and_unused_index_sets (r : DataReader) : DataReader * bool :=
  let tmp_indices := ShuffledIndices r in
  let r1 := set_ShuffledIndices (m_unused_indices r) r in
  let r2 := set_unused_indices tmp_indices r1 in
  (r2, true).

(** *** The mini-batch distribution *)

(** [rint(getNumData() / m_stride)]: the quotient is taken on [int]
    before it is converted to [double] and handed to [rint]. *)
Definition num_whole_mini_batches (r : DataReader) : outcome Z :=
  q ← int_div (getNumData r) (m_stride r);
  mret (rint (inject_Z q)).

Definition num_parallel_readers_per_model (comm : lbann_comm) (r : DataReader) :
    outcome Z :=
  let max_mini_batch_size := BatchSize r in
  t ← int_div (m_stride r) (get_num_models comm);
  int_div t max_mini_batch_size.

(** [partial_mini_batch_size] as first assigned, before the remainder of
    the world master is added. *)
Definition partial_mini_batch_size (comm : lbann_comm) (r : DataReader) :
    outcome Z :=
  readers ← num_parallel_readers_per_model comm r;
  whole ← num_whole_mini_batches r;
  int_div (getNumData r - whole * m_stride r)
          (get_num_models comm * readers).

Definition calculate_multi_model_data_distribution (comm : lbann_comm)
    (r : DataReader) : outcome DataReader :=
  let max_mini_batch_size := BatchSize r in
  readers ← num_parallel_readers_per_model comm r;
  whole ← num_whole_mini_batches r;
  partial ← partial_mini_batch_size comm r;
  let world_master_remainder_data := 0 in
  let world_master_remainder_adjustment :=
    getNumData r - whole * m_stride r
    - partial * get_num_models comm * readers in
  let '(world_master_remainder_data, world_master_remainder_adjustment) :=
    if am_world_master comm then (world_master_remainder_adjustment, 0)
    else (world_master_remainder_data, world_master_remainder_adjustment) in
  let partial := partial + world_master_remainder_data in
  let threshold := m_stride r * whole in
  let num_readers_at_full_stride :=
    (get_num_models comm - get_model_rank comm) * readers in
  let num_readers_at_last_stride := get_model_rank comm * readers in
  let '(num_readers_at_full_stride, num_readers_at_last_stride) :=
    if get_rank_in_model comm <? readers
    then (num_readers_at_full_stride - get_rank_in_model comm,
          num_readers_at_last_stride + get_rank_in_model comm)
    else (num_readers_at_full_stride, num_readers_at_last_stride) in
  let last_stride :=
    max_mini_batch_size * num_readers_at_full_stride
    + partial * num_readers_at_last_stride
    + world_master_remainder_adjustment in
  mret (set_last_mini_batch threshold partial last_stride r).

Section WithGenerator.

Context `{G : Generator}.

(** [std::shuffle(ShuffledIndices.begin(), ShuffledIndices.end(),
    get_generator())]. *)
Definition shuffle_indices (s : rng_gen * DataReader) : rng_gen * DataReader :=
  let '(g, l) := std_shuffle s.1 (ShuffledIndices s.2) in
  (g, set_ShuffledIndices l s.2).

(** [setup(base_offset, stride, model_offset, comm)]; [None] is the null
    pointer. *)
Definition setup (base_offset stride model_offset : Z)
    (comm : option lbann_comm) (s : rng_gen * DataReader) :
    outcome (rng_gen * DataReader) :=
  let r := set_offsets base_offset stride model_offset s.2 in
  r ← match comm with
      | Some c =>
          r' ← calculate_multi_model_data_distribution c r;
          mret (set_use_alt true r')
      | None => mret r
      end;
  let r := set_CurrentPos (m_base_offset r + m_model_offset r) r in
  mret (if m_shuffle r =? 0 then (s.1, r) else shuffle_indices (s.1, r)).

(** The first statement of [update()]: the advance of the cursor. *)
Definition update_advance (r : DataReader) : DataReader :=
  if m_use_alt_last_mini_batch_size r
     && (CurrentPos r + m_stride r >? m_last_mini_batch_threshold r)
  then set_CurrentPos (CurrentPos r + m_last_mini_batch_stride r) r
  else set_CurrentPos (CurrentPos r + m_stride r) r.

Definition update (s : rng_gen * DataReader) : rng_gen * DataReader * bool :=
  let r := update_advance s.2 in
  if CurrentPos r <? getNumData r then (s.1, r, true)
  else
    let '(g, r) :=
      if m_shuffle r =? 0 then (s.1, r) else shuffle_indices (s.1, r) in
    (g, set_CurrentPos (m_base_offset r + m_model_offset r) r, false).

Definition select_subset_of_data (max_sample_count : Z) (firstN : bool)
    (s : rng_gen * DataReader) : rng_gen * DataReader :=
  let num_data_samples := to_size_t (getNumData s.2) in
  if max_sample_count =? 0 then s
  else
    let max_sample_count := MIN max_sample_count num_data_samples in
    let '(g, r) := if negb firstN then shuffle_indices s else s in
    let r := set_unused_indices
               (drop (Z.to_nat max_sample_count) (ShuffledIndices r)) r in
    let r := set_ShuffledIndices
               (resize (Z.to_nat max_sample_count) 0 (ShuffledIndices r)) r in
    let r := if negb firstN
             then set_unused_indices (std_sort (m_unused_indices r))
                    (set_ShuffledIndices (std_sort (ShuffledIndices r)) r)
             else r in
    (g, r).

(** [trim_data_set(use_percentage, firstN)].  The number of used
    indices is converted to [double] and multiplied by the fraction in
    [double]; the product, rounded to a double, is rounded by [rint] and
    converted to [size_t], a negative value to its two's complement,
    which is what the test on the cast to [long] looks for.  A product
    that is a NaN or an infinity has no conversion.  The reader is
    returned next to the result because a throw leaves it as it was. *)
Definition trim_data_set (use_percentage : spec_float) (firstN : bool)
    (s : rng_gen * DataReader) : rng_gen * DataReader * outcome Z :=
  match rint_double (double_mul (double_of_int (getNumData s.2)) use_percentage) with
  | None => (s, Undefined)
  | Some count =>
      let max_sample_count := to_size_t count in
      if (max_sample_count >? to_size_t (getNumData s.2))
         || (to_long max_sample_count <? 0)
      then (s, Throw "data reader trim error: invalid number of samples selected")
      else
        let s' := select_subset_of_data max_sample_count firstN s in
        (s', Ret (to_size_t (getNumData s'.2)))
  end.

(** [n] successive calls of [update()], with the values returned. *)
Fixpoint update_n (n : nat) (s : rng_gen * DataReader) :
    rng_gen * DataReader * list bool :=
  match n with
  | O => (s, [])
  | S n' =>
      let '(g, r, b) := update s in
      let '(s', bs) := update_n n' (g, r) in
      (s', b :: bs)
  end.

End WithGenerator.

End Reader.

(** ** The ImageNet reader *)

Module ImageNet.

Import Comm Reader.

(** What the reader takes from outside: the element type of a matrix with
    the two values it stores ([m_pixels[p] / 255.0f] and [1]), the list
    file as [fopen] and the [fscanf] loop deliver it ([None] when the file
    cannot be opened), and [image_utils::loadJPG], which yields its return
    value, the width and the height it found and the content of the pixel
    buffer after the call. *)
Class ImageIO : Type := {
  DataType : Type;
  pixel_value : Z → DataType;
  DataType_one : DataType;
  read_image_list : string → option (list (string * Z));
  loadJPG : string → bool * Z * Z * list Z
}.

Record DataReader_ImageNet : Type := mkImageNet {
  base : DataReader;
  m_image_dir : string;
  ImageList : list (string * Z);
  m_image_width : Z;
  m_image_height : Z;
  m_num_labels : Z;
  m_pixels : list Z
}.

Definition set_base (b : DataReader) (r : DataReader_ImageNet) : DataReader_ImageNet :=
  mkImageNet b (m_image_dir r) (ImageList r) (m_image_width r)
    (m_image_height r) (m_num_labels r) (m_pixels r).

Definition set_image_dir (d : string) (r : DataReader_ImageNet) : DataReader_ImageNet :=
  mkImageNet (base r) d (ImageList r) (m_image_width r)
    (m_image_height r) (m_num_labels r) (m_pixels r).

Definition set_ImageList (l : list (string * Z)) (r : DataReader_ImageNet) :
    DataReader_ImageNet :=
  mkImageNet (base r) (m_image_dir r) l (m_image_width r)
    (m_image_height r) (m_num_labels r) (m_pixels r).

Definition set_pixels (p : list Z) (r : DataReader_ImageNet) : DataReader_ImageNet :=
  mkImageNet (base r) (m_image_dir r) (ImageList r) (m_image_width r)
    (m_image_height r) (m_num_labels r) p.

(** [DataReader_ImageNet(int batchSize, bool shuffle)]; the fresh pixel
    buffer is taken as zeroed. *)
Definition DataReader_ImageNet_new (batchSize : Z) (shuffle : bool) :
    DataReader_ImageNet :=
  mkImageNet (DataReader_new batchSize shuffle) "" [] 256 256 1000
    (replicate (Z.to_nat (256 * 256 * 3)) 0).

(** [v[i]] on a vector or a buffer: undefined outside its bounds. *)
Definition at_index {A : Type} (l : list A) (i : Z) : outcome A :=
  if i <? 0 then Undefined
  else match l !! Z.to_nat i with
       | Some a => Ret a
       | None => Undefined
       end.

Section WithIO.

Context `{IO : ImageIO}.

(** A matrix [Mat] by its entries; [X.Set(i, j, v)] stores one. *)
Definition Mat_Set (i j : Z) (v : DataType) (X : gmap (Z * Z) DataType) :
    gmap (Z * Z) DataType :=
  <[(i, j) := v]> X.

(** [for (p = 0; p < pixelcount; p++) X.Set(p, k, m_pixels[p] / 255.0f)]. *)
Fixpoint copy_pixels (count : nat) (p k : Z) (pixels : list Z)
    (X : gmap (Z * Z) DataType) : gmap (Z * Z) DataType * outcome unit :=
  match count with
  | O => (X, Ret tt)
  | S count' =>
      match at_index pixels p with
      | Ret v => copy_pixels count' (p + 1) k pixels (Mat_Set p k (pixel_value v) X)
      | Throw msg => (X, Throw msg)
      | Undefined => (X, Undefined)
      end
  end.

(** The loop of [fetch_data]; [todo] bounds the iterations left by the
    test [n < CurrentPos + current_batch_size]; the value is [n] at the
    exit. *)
Fixpoint fetch_data_loop (todo : nat) (n : Z) (r : DataReader_ImageNet)
    (X : gmap (Z * Z) DataType) :
    DataReader_ImageNet * gmap (Z * Z) DataType * outcome Z :=
  match todo with
  | O => (r, X, Ret n)
  | S todo' =>
      if n >=? getNumData (base r) then (r, X, Ret n)
      else
        let k := n - CurrentPos (base r) in
        match at_index (ShuffledIndices (base r)) n with
        | Ret index =>
            match at_index (ImageList r) index with
            | Ret entry =>
                let imagepath := (m_image_dir r +:+ entry.1)%string in
                let '(ret, width, height, pixels) := loadJPG imagepath in
                let r := set_pixels pixels r in
                if negb ret
                then (r, X, Throw "ImageNet: image_utils::loadJPG fauled to load")
                else if negb (width =? m_image_width r)
                        || negb (height =? m_image_height r)
                then (r, X, Throw "ImageNet: mismatch data size -- either width or height")
                else
                  let pixelcount := m_image_width r * m_image_height r in
                  match copy_pixels (Z.to_nat pixelcount) 0 k (m_pixels r) X with
                  | (X, Ret _) => fetch_data_loop todo' (n + 1) r X
                  | (X, Throw msg) => (r, X, Throw msg)
                  | (X, Undefined) => (r, X, Undefined)
                  end
            | Throw msg => (r, X, Throw msg)
            | Undefined => (r, X, Undefined)
            end
        | Throw msg => (r, X, Throw msg)
        | Undefined => (r, X, Undefined)
        end
  end.

Definition fetch_data (r : DataReader_ImageNet) (X : gmap (Z * Z) DataType) :
    DataReader_ImageNet * gmap (Z * Z) DataType * outcome Z :=
  if negb (position_valid (base r)) then (r, X, Ret 0)
  else
    let current_batch_size := getBatchSize (base r) in
    let '(r', X', res) :=
      fetch_data_loop (Z.to_nat current_batch_size) (CurrentPos (base r)) r X in
    (r', X', n ← res; mret (n - CurrentPos (base r))).

(** The loop of [fetch_label]. *)
Fixpoint fetch_label_loop (todo : nat) (n : Z) (r : DataReader_ImageNet)
    (Y : gmap (Z * Z) DataType) : gmap (Z * Z) DataType * outcome Z :=
  match todo with
  | O => (Y, Ret n)
  | S todo' =>
      if n >=? getNumData (base r) then (Y, Ret n)
      else
        let k := n - CurrentPos (base r) in
        match at_index (ShuffledIndices (base r)) n with
        | Ret index =>
            match at_index (ImageList r) index with
            | Ret entry =>
                let label := entry.2 in
                fetch_label_loop todo' (n + 1) r (Mat_Set label k DataType_one Y)
            | Throw msg => (Y, Throw msg)
            | Undefined => (Y, Undefined)
            end
        | Throw msg => (Y, Throw msg)
        | Undefined => (Y, Undefined)
        end
  end.

Definition fetch_label (r : DataReader_ImageNet) (Y : gmap (Z * Z) DataType) :
    gmap (Z * Z) DataType * outcome Z :=
  if negb (position_valid (base r)) then (Y, Ret 0)
  else
    let current_batch_size := getBatchSize (base r) in
    let '(Y', res) :=
      fetch_label_loop (Z.to_nat current_batch_size) (CurrentPos (base r)) r Y in
    (Y', n ← res; mret (n - CurrentPos (base r))).

(** [ShuffledIndices.clear(); ShuffledIndices.resize(size);
    for (n = 0; n < size; n++) ShuffledIndices[n] = n;]. *)
Definition reset_indices (size : nat) : list Z :=
  foldl (fun l n => <[n := to_int (Z.of_nat n)]> l) (replicate size 0) (seq 0 size).

(** [load(imageDir, imageListFile)]. *)
Definition load (imageDir imageListFile : string) (r : DataReader_ImageNet) :
    DataReader_ImageNet * bool :=
  let r := set_image_dir imageDir r in
  let r := set_ImageList [] r in
  match read_image_list imageListFile with
  | None => (r, false)
  | Some entries =>
      let r := set_ImageList (ImageList r ++ entries) r in
      let r := set_base
                 (set_ShuffledIndices (reset_indices (length (ImageList r)))
                    (base r)) r in
      (r, true)
  end.

Context `{G : Generator}.

(** [load(imageDir, imageListFile, size_t max_sample_count, firstN)]. *)
Definition load_count (imageDir imageListFile : string) (max_sample_count : Z)
    (firstN : bool) (s : rng_gen * DataReader_ImageNet) :
    rng_gen * DataReader_ImageNet * outcome bool :=
  let '(r, load_successful) := load imageDir imageListFile s.2 in
  if (max_sample_count >? to_size_t (getNumData (base r)))
     || (to_long max_sample_count <? 0)
  then (s.1, r, Throw "ImageNet: data reader load error: invalid number of samples selected")
  else
    let '(g, b) := select_subset_of_data max_sample_count firstN (s.1, base r) in
    (g, set_base b r, Ret load_successful).

(** [load(imageDir, imageListFile, double use_percentage, firstN)]. *)
Definition load_percentage (imageDir imageListFile : string)
    (use_percentage : spec_float)
    (firstN : bool) (s : rng_gen * DataReader_ImageNet) :
    rng_gen * DataReader_ImageNet * outcome bool :=
  let '(r, load_successful) := load imageDir imageListFile s.2 in
  match rint_double
          (double_mul (double_of_int (getNumData (base r))) use_percentage) with
  | None => (s.1, r, Undefined)
  | Some count =>
      let max_sample_count := to_size_t count in
      if (max_sample_count >? to_size_t (getNumData (base r)))
         || (to_long max_sample_count <? 0)
      then (s.1, r, Throw "ImageNet: data reader load error: invalid number of samples selected")
      else
        let '(g, b) := select_subset_of_data max_sample_count firstN (s.1, base r) in
        (g, set_base b r, Ret load_successful)
  end.

End WithIO.

End ImageNet.

(** ** Well-formedness conditions used in the statements *)

Import Comm Reader ImageNet.

(** The number of used indices is representable as an [int], so that the
    cast in [getNumData] loses nothing. *)
Definition fits_int (r : DataReader) : Prop :=
  Z.of_nat (length (ShuffledIndices r)) ≤ INT_MAX.

(** Every used index designates an entry of the image list. *)
Definition indices_in_catalog (r : DataReader_ImageNet) : Prop :=
  Forall (fun i => 0 ≤ i < Z.of_nat (length (ImageList r)))
         (ShuffledIndices (base r)).

(** The entry of the image list that position [n] of the used indices
    designates. *)
Definition entry_at (r : DataReader_ImageNet) (n : Z) : string * Z :=
  default (EmptyString, 0)
    (ImageList r !! Z.to_nat (default 0 (ShuffledIndices (base r) !! Z.to_nat n))).

(** What [loadJPG] leaves in the pixel buffer for the image at position
    [n]. *)
Definition pixels_at `{IO : ImageIO} (r : DataReader_ImageNet) (n : Z) : list Z :=
  (loadJPG (m_image_dir r +:+ (entry_at r n).1)%string).2.

(** Every image of the used indices decodes, with the dimensions the
    reader expects and a buffer that holds at least one plane. *)
Definition images_load `{IO : ImageIO} (r : DataReader_ImageNet) : Prop :=
  ∀ n, 0 ≤ n < Z.of_nat (length (ShuffledIndices (base r))) →
    ∃ pixels,
      loadJPG (m_image_dir r +:+ (entry_at r n).1)%string
        = (true, m_image_width r, m_image_height r, pixels)
      ∧ m_image_width r * m_image_height r ≤ Z.of_nat (length pixels).

(** Two readers with the same parameters and the same index sets up to
    the order of the used indices: what a shuffle may change. *)
Definition same_setup (r r' : DataReader) : Prop :=
  BatchSize r' = BatchSize r
  ∧ m_shuffle r' = m_shuffle r
  ∧ m_stride r' = m_stride r
  ∧ m_base_offset r' = m_base_offset r
  ∧ m_model_offset r' = m_model_offset r
  ∧ m_use_alt_last_mini_batch_size r' = m_use_alt_last_mini_batch_size r
  ∧ m_last_mini_batch_threshold r' = m_last_mini_batch_threshold r
  ∧ m_last_mini_batch_size r' = m_last_mini_batch_size r
  ∧ m_last_mini_batch_stride r' = m_last_mini_batch_stride r
  ∧ ShuffledIndices r' ≡ₚ ShuffledIndices r
  ∧ m_unused_indices r' = m_unused_indices r.

(** The place of a reader among all readers, models first: with [readers]
    readers in each model, reader [rank_in_model] of model [model_rank]. *)
Definition reader_index (comm : lbann_comm) (readers : Z) : Z :=
  get_model_rank comm * readers + get_rank_in_model comm.

(** The processes of one model of [p] processes, in rank order, with
    their counters at zero. *)
Definition model_of (p : Z) : list lbann_comm :=
  (fun i => mk_lbann_comm 1 p 0 i i 0 0 0 0 0) <$> seqZ 0 p.

(** ** Concrete instances, for examples *)

Module Sample.

(** A generator that advances by a linear congruence and cuts the range
    at a point drawn from its state. *)
Definition cut (g : Z) (l : list Z) : Z * list Z :=
  let k := Z.to_nat (g mod 7) in
  ((g * 1103515245 + 12345) mod 2 ^ 31, drop k l ++ take k l).

Lemma cut_perm (g : Z) (l : list Z) : (cut g l).2 ≡ₚ l.
Proof.
  unfold cut; simpl.
  rewrite Permutation_app_comm. by rewrite take_drop.
Qed.

#[global] Instance cut_generator : Generator :=
  {| rng_gen := Z; std_shuffle := cut; std_shuffle_perm := cut_perm |}.

(** A catalogue of five 2x2 images; the list file "train.txt" names them
    all, "val.txt" the first three. *)
Definition catalog : list (string * Z) :=
  [("a.jpg", 3); ("b.jpg", 1); ("c.jpg", 4); ("d.jpg", 1); ("e.jpg", 5)]%string.

Definition files (name : string) : option (list (string * Z)) :=
  if String.eqb name "train.txt" then Some catalog
  else if String.eqb name "val.txt" then Some (take 3 catalog)
  else None.

Definition decode (path : string) : bool * Z * Z * list Z :=
  (true, 2, 2, replicate 12 (Z.of_nat (String.length path))).

#[global] Instance sample_io : ImageIO :=
  {| DataType := Q;
     pixel_value := fun v => (inject_Z v / 255)%Q;
     DataType_one := 1%Q;
     read_image_list := files;
     loadJPG := decode |}.

(** The double nearest to the fraction [a / b] of two small integers:
    what the compiler makes of a decimal literal such as 0.025 (1 / 40). *)
Definition fraction (a b : Z) : spec_float :=
  double_div (double_of_int a) (double_of_int b).

(** A reader over [n] samples with the given batch size, without
    shuffling. *)
Definition reader_of (n batchSize : Z) : DataReader :=
  set_ShuffledIndices (seqZ 0 n) (DataReader_new batchSize false).

(** One model of two processes; the second process, which is a reader. *)
Definition second_of_two : lbann_comm :=
  mk_lbann_comm 1 2 0 1 1 0 0 0 0 0.

(** A single process that is its own model. *)
Definition single : lbann_comm :=
  mk_lbann_comm 1 1 0 0 0 0 0 0 0 0.

(** The state of the second of two readers over 1005 samples with batches
    of 10 (stride 20, base offset 10) after [setup] and 49 calls of
    [update]. *)
Definition second_reader_late : option (Z * DataReader) :=
  match setup 10 20 0 (Some second_of_two) (1, reader_of 1005 10) with
  | Ret s => Some (update_n 49 s).1
  | _ => None
  end.

(** That state, written out: the cursor at 990, the threshold at 1000,
    a last mini-batch of 2 samples and a last stride of 13. *)
Definition late_reader : DataReader :=
  mkDataReader 10 990 0 20 10 0 true 1000 2 13 (seqZ 0 1005) [].

(** An ImageNet reader with 2x2 images. *)
Definition small_imagenet (batchSize : Z) : DataReader_ImageNet :=
  mkImageNet (DataReader_new batchSize false) "" [] 2 2 1000
    (replicate 12 0).

(** That reader after [load] of the five images, with the cursor on the
    last of them. *)
Definition loaded_tail : DataReader_ImageNet :=
  let r := (load "" "train.txt" (small_imagenet 2)).1 in
  set_base (set_CurrentPos 4 (base r)) r.

(** A fresh reader that loads "train.txt" keeping the first two samples,
    and then loads "val.txt". *)
Definition reloaded : DataReader_ImageNet * bool :=
  let '(g, r, _) := load_count "" "train.txt" 2 true (1, small_imagenet 2) in
  load "" "val.txt" r.

(** An environment in which the image "c.jpg" does not decode. *)
Definition decode_but_c (path : string) : bool * Z * Z * list Z :=
  if String.eqb path "c.jpg" then (false, 0, 0, []) else decode path.

Definition broken_io : ImageIO :=
  {| DataType := Q;
     pixel_value := fun v => (inject_Z v / 255)%Q;
     DataType_one := 1%Q;
     read_image_list := files;
     loadJPG := decode_but_c |}.

(** A reader with batches of three over the five images. *)
Definition loaded_three : DataReader_ImageNet :=
  (load "" "train.txt" (small_imagenet 3)).1.

(** Three processes that form one model, with their counters at zero. *)
Definition one_model : list lbann_comm :=
  [mk_lbann_comm 1 3 0 0 0 0 0 0 0 0;
   mk_lbann_comm 1 3 0 1 1 0 0 0 0 0;
   mk_lbann_comm 1 3 0 2 2 0 0 0 0 0].

(** The first processes of three models with two processes each: the
    members of one inter-model communicator, ranked by their model. *)
Definition first_of_each_model : list lbann_comm :=
  [mk_lbann_comm 3 2 0 0 0 0 0 0 0 0;
   mk_lbann_comm 3 2 1 0 2 0 0 0 0 0;
   mk_lbann_comm 3 2 2 0 4 0 0 0 0 0].

End Sample.

(** * Properties *)

(** ** Conversions and rounding *)

Lemma to_int_small (x : Z) : 0 ≤ x ≤ INT_MAX → to_int x = x.
Proof.
  unfold to_int, INT_MAX. intros Hx.
  rewrite Z.mod_small; lia.
Qed.

Lemma to_size_t_small (x : Z) : 0 ≤ x < SIZE_MOD → to_size_t x = x.
Proof. unfold to_size_t. intros Hx. by apply Z.mod_small. Qed.

Lemma to_size_t_range (x : Z) : 0 ≤ to_size_t x < SIZE_MOD.
Proof. unfold to_size_t, SIZE_MOD. apply Z.mod_pos_bound. lia. Qed.

Lemma to_size_t_negative (x : Z) :
  - SIZE_MOD ≤ x < 0 → to_size_t x = x + SIZE_MOD.
Proof.
  unfold to_size_t, SIZE_MOD. intros Hx.
  rewrite <- (Z.mod_add x 1) by lia.
  rewrite Z.mod_small; lia.
Qed.

Lemma getNumData_fits (r : DataReader) :
  fits_int r → getNumData r = Z.of_nat (length (ShuffledIndices r)).
Proof.
  unfold fits_int, getNumData. intros Hr. apply to_int_small. lia.
Qed.

Lemma getNumData_range (r : DataReader) :
  fits_int r → 0 ≤ getNumData r ≤ INT_MAX.
Proof.
  intros Hr. rewrite getNumData_fits by done. unfold fits_int in Hr. lia.
Qed.

(** On a value that is already an integer [rint] changes nothing. *)
Lemma rint_inject_Z (z : Z) : rint (inject_Z z) = z.
Proof.
  unfold rint. rewrite Qfloor_Z.
  assert (Hz : (inject_Z z - inject_Z z == 0)%Q) by ring.
  destruct (Qcompare_spec (inject_Z z - inject_Z z) (1 # 2)) as [H|H|H].
  - rewrite Hz in H. discriminate H.
  - done.
  - rewrite Hz in H. discriminate H.
Qed.

(** [rint] is a nearest integer. *)
Lemma rint_nearest (x : Q) :
  (inject_Z (rint x) - (1 # 2) <= x <= inject_Z (rint x) + (1 # 2))%Q.
Proof.
  unfold rint.
  pose proof (Qfloor_le x) as Hlo.
  pose proof (Qlt_floor x) as Hhi.
  rewrite inject_Z_plus in Hhi.
  change (inject_Z 1) with 1%Q in Hhi.
  destruct (Qcompare_spec (x - inject_Z (Qfloor x)) (1 # 2)) as [H|H|H];
    [destruct (Z.even (Qfloor x))| |];
    rewrite ?inject_Z_plus; change (inject_Z 1) with 1%Q; split; lra.
Qed.

(** ** The mini-batch distribution *)

Lemma int_div_nonzero (a b : Z) : b ≠ 0 → int_div a b = Ret (a ÷ b).
Proof.
  intros Hb. unfold int_div.
  destruct (Z.eqb_spec b 0) as [->|_]; done.
Qed.

Lemma int_div_Ret (a b q : Z) : int_div a b = Ret q → b ≠ 0 ∧ q = a ÷ b.
Proof.
  unfold int_div. destruct (Z.eqb_spec b 0) as [->|Hb]; [done|].
  intros [= <-]. done.
Qed.

Lemma num_whole_mini_batches_quot (r : DataReader) :
  m_stride r ≠ 0 →
  num_whole_mini_batches r = Ret (getNumData r ÷ m_stride r).
Proof.
  intros Hs. unfold num_whole_mini_batches.
  rewrite int_div_nonzero by done. simpl.
  unfold mret, outcome_ret. by rewrite rint_inject_Z.
Qed.

(** The distribution for 1005 samples, batches of 10, one model with one
    reader: 100 whole mini-batches, the threshold at 1000, and the 5
    samples left over as the last mini-batch of the world master. *)
Example distribution_1005 :
  num_whole_mini_batches (Sample.reader_of 1005 10) = Ret 100
  ∧ (r ← calculate_multi_model_data_distribution Sample.single
           (Sample.reader_of 1005 10);
     mret (m_last_mini_batch_threshold r, m_last_mini_batch_size r,
           m_last_mini_batch_stride r)) = Ret (1000, 5, 10).
Proof. split; vm_compute; reflexivity. Qed.

(** C1, as the code has it: for a used set whose size fits an [int] and a
    positive stride, the number of whole mini-batches is the integer
    quotient of the sample count by the stride, rounded down ([rint] is
    applied to a value that is already integral); the samples left over
    are at least 0 and fewer than one stride, and the partial mini-batch
    size computed from them by integer division is never negative when
    the number of models and the batch size are positive. *)
Theorem whole_mini_batches_is_quotient (r : DataReader) :
  fits_int r → 0 < m_stride r →
  num_whole_mini_batches r = Ret (getNumData r `div` m_stride r)
  ∧ 0 ≤ getNumData r - (getNumData r `div` m_stride r) * m_stride r < m_stride r
  ∧ ∀ comm p,
      0 < get_num_models comm → 0 < BatchSize r →
      partial_mini_batch_size comm r = Ret p → 0 ≤ p.
Proof.
  intros Hfit Hs.
  pose proof (getNumData_range r Hfit) as Hn.
  assert (Hq : getNumData r ÷ m_stride r = getNumData r `div` m_stride r)
    by (apply Z.quot_div_nonneg; lia).
  assert (Hrem : 0 ≤ getNumData r - (getNumData r `div` m_stride r) * m_stride r
                 < m_stride r).
  { pose proof (Z.mod_pos_bound (getNumData r) (m_stride r) Hs) as Hm.
    rewrite Z.mod_eq in Hm by lia. lia. }
  split; [|split; [exact Hrem|]].
  - rewrite num_whole_mini_batches_quot by lia. by rewrite Hq.
  - intros comm p Hm Hb. unfold partial_mini_batch_size.
    unfold num_parallel_readers_per_model.
    rewrite (int_div_nonzero (m_stride r)) by lia. simpl.
    rewrite (int_div_nonzero _ (BatchSize r)) by lia. simpl.
    rewrite num_whole_mini_batches_quot by lia. simpl. rewrite Hq.
    intros Hp. apply int_div_Ret in Hp as [Hd ->].
    set (readers := m_stride r ÷ get_num_models comm ÷ BatchSize r) in *.
    assert (0 ≤ readers).
    { unfold readers. apply Z.quot_pos; [|lia]. apply Z.quot_pos; lia. }
    apply Z.quot_pos; [lia|]. nia.
Qed.

Lemma whole_mini_batches_is_quotient_witness :
  num_whole_mini_batches (Sample.reader_of 1005 10) = Ret (1005 `div` 10)
  ∧ 0 ≤ 1005 - (1005 `div` 10) * 10 < 10
  ∧ ∀ comm p,
      0 < get_num_models comm → 0 < BatchSize (Sample.reader_of 1005 10) →
      partial_mini_batch_size comm (Sample.reader_of 1005 10) = Ret p → 0 ≤ p.
Proof.
  apply (whole_mini_batches_is_quotient (Sample.reader_of 1005 10)).
  - vm_compute. discriminate.
  - reflexivity.
Defined.

(** C1, as the claim has it, fails: for 1007 samples and a stride of 10
    the nearest integer to 100.7 is 101, and the code computes 100. *)
Lemma whole_mini_batches_not_nearest :
  rint (1007 # 10) = 101
  ∧ getNumData (Sample.reader_of 1007 10) = 1007
  ∧ m_stride (Sample.reader_of 1007 10) = 10
  ∧ num_whole_mini_batches (Sample.reader_of 1007 10) = Ret 100
  ∧ num_whole_mini_batches (Sample.reader_of 1007 10) ≠ Ret (rint (1007 # 10)).
Proof.
  repeat split; try (vm_compute; reflexivity).
  vm_compute. discriminate.
Qed.

(** ** The cursor *)

Section Cursor.

Context `{G : Generator}.

Implicit Types (s : rng_gen * DataReader) (r : DataReader).

Lemma update_advance_pos r :
  CurrentPos (update_advance r) = get_next_position r.
Proof.
  unfold update_advance, get_next_position.
  by destruct (_ && _).
Qed.

Lemma update_advance_eq r :
  update_advance r = set_CurrentPos (get_next_position r) r.
Proof.
  unfold update_advance, get_next_position.
  by destruct (_ && _).
Qed.

Lemma update_returns s :
  (update s).2 = (get_next_position s.2 <? getNumData s.2).
Proof.
  unfold update. rewrite update_advance_eq. simpl.
  change (getNumData (set_CurrentPos _ s.2)) with (getNumData s.2).
  destruct (_ <? _); [done|].
  destruct (m_shuffle s.2 =? 0); [done|].
  by destruct (shuffle_indices _).
Qed.

(** A call that returns [true] has moved the cursor and nothing else. *)
Lemma update_true s :
  (update s).2 = true →
  (update s).1 = (s.1, set_CurrentPos (get_next_position s.2) s.2).
Proof.
  rewrite update_returns. intros Hlt.
  unfold update. rewrite update_advance_eq. simpl.
  change (getNumData (set_CurrentPos _ s.2)) with (getNumData s.2).
  by rewrite Hlt.
Qed.

(** A call that returns [false] has reshuffled if the reader shuffles,
    and has put the cursor back to the two offsets. *)
Lemma update_false s :
  (update s).2 = false →
  (update s).1 =
    let s1 := (s.1, set_CurrentPos (get_next_position s.2) s.2) in
    let s2 := if m_shuffle s.2 =? 0 then s1 else shuffle_indices s1 in
    (s2.1, set_CurrentPos (m_base_offset s.2 + m_model_offset s.2) s2.2).
Proof.
  rewrite update_returns. intros Hlt.
  unfold update. rewrite update_advance_eq. simpl.
  change (getNumData (set_CurrentPos _ s.2)) with (getNumData s.2).
  rewrite Hlt.
  destruct (m_shuffle s.2 =? 0); [done|].
  unfold shuffle_indices; simpl. by destruct (std_shuffle _ _).
Qed.

(** C10: [get_next_position()] is the value [update()] gives the cursor
    before it tests for the wrap: the position plus the last-mini-batch
    stride when the alternative mode is on and position plus stride
    exceeds the threshold, the position plus the stride otherwise; the
    test of [update()] is made on that value, and it is the new position
    whenever [update()] returns [true]. *)
Theorem get_next_position_is_update_advance s :
  get_next_position s.2 = CurrentPos (update_advance s.2)
  ∧ get_next_position s.2 =
      (if m_use_alt_last_mini_batch_size s.2
          && (CurrentPos s.2 + m_stride s.2 >? m_last_mini_batch_threshold s.2)
       then CurrentPos s.2 + m_last_mini_batch_stride s.2
       else CurrentPos s.2 + m_stride s.2)
  ∧ (update s).2 = (get_next_position s.2 <? getNumData s.2)
  ∧ ((update s).2 = true → CurrentPos (update s).1.2 = get_next_position s.2).
Proof.
  split; [by rewrite update_advance_pos|].
  split; [done|].
  split; [apply update_returns|].
  intros Ht. by rewrite (update_true s Ht).
Qed.

(** C3, as the code has it: with the alternative mode on and position
    plus stride beyond the threshold, [update()] moves the cursor by the
    last-mini-batch stride, and keeps it there unless the new position
    has reached the number of used indices, in which case the cursor
    returns to the two offsets; [getBatchSize()] follows a test of its
    own, and returns the last-mini-batch size when the position has
    reached the threshold and the batch size when it has not.  With a
    last-mini-batch stride that is not negative, the state after a call
    that returned [true] is again beyond the threshold. *)
Theorem alt_mode_advance s :
  m_use_alt_last_mini_batch_size s.2 = true →
  CurrentPos s.2 + m_stride s.2 > m_last_mini_batch_threshold s.2 →
  CurrentPos (update_advance s.2) = CurrentPos s.2 + m_last_mini_batch_stride s.2
  ∧ getBatchSize s.2 =
      (if CurrentPos s.2 >=? m_last_mini_batch_threshold s.2
       then m_last_mini_batch_size s.2 else BatchSize s.2)
  ∧ ((update s).2 = true →
       CurrentPos (update s).1.2 = CurrentPos s.2 + m_last_mini_batch_stride s.2
       ∧ m_use_alt_last_mini_batch_size (update s).1.2 = true
       ∧ (0 ≤ m_last_mini_batch_stride s.2 →
          CurrentPos (update s).1.2 + m_stride (update s).1.2
            > m_last_mini_batch_threshold (update s).1.2))
  ∧ ((update s).2 = false →
       CurrentPos (update s).1.2 = m_base_offset s.2 + m_model_offset s.2).
Proof.
  intros Halt Hcross.
  assert (Hnext : get_next_position s.2
                  = CurrentPos s.2 + m_last_mini_batch_stride s.2).
  { unfold get_next_position. rewrite Halt. simpl.
    destruct (Z.gtb_spec (CurrentPos s.2 + m_stride s.2)
                (m_last_mini_batch_threshold s.2)); [done|lia]. }
  split; [by rewrite update_advance_pos|].
  split; [unfold getBatchSize; by rewrite Halt|].
  split.
  - intros Ht. rewrite (update_true s Ht). simpl.
    rewrite Hnext. split; [done|]. split; [done|]. lia.
  - intros Hf. rewrite (update_false s Hf). done.
Qed.

Lemma update_n_S n s :
  update_n (S n) s =
    ((update_n n (update s).1).1, (update s).2 :: (update_n n (update s).1).2).
Proof.
  simpl. destruct (update s) as [[g r] b]. simpl.
  by destruct (update_n n (g, r)).
Qed.

(** With positive strides a pass ends: some number of calls return
    [true], and the next one returns [false]. *)
Lemma pass_terminates (m : nat) s :
  0 < m_stride s.2 →
  (m_use_alt_last_mini_batch_size s.2 = true → 0 < m_last_mini_batch_stride s.2) →
  getNumData s.2 - CurrentPos s.2 ≤ Z.of_nat m →
  ∃ k : nat, (update_n (S k) s).2 = replicate k true ++ [false].
Proof.
  revert s. induction m as [|m IH]; intros s Hs Ha Hm.
  - exists 0%nat. rewrite update_n_S. simpl. f_equal.
    rewrite update_returns. apply Z.ltb_ge.
    unfold get_next_position.
    destruct (m_use_alt_last_mini_batch_size s.2); simpl; [|lia].
    specialize (Ha eq_refl). destruct (_ >? _); lia.
  - destruct ((update s).2) eqn:Hb.
    + pose proof (update_true s Hb) as Hu.
      destruct (IH (update s).1) as [k Hk].
      * by rewrite Hu.
      * by rewrite Hu.
      * rewrite Hu. simpl.
        unfold get_next_position.
        change (getNumData (set_CurrentPos _ s.2)) with (getNumData s.2).
        destruct (m_use_alt_last_mini_batch_size s.2); simpl; [|lia].
        specialize (Ha eq_refl). destruct (_ >? _); lia.
      * exists (S k). rewrite update_n_S, Hb, Hk. done.
    + exists 0%nat. rewrite update_n_S, Hb. done.
Qed.

(** C4: [update()] returns [false] exactly when the advanced position
    has reached the number of used indices; that call puts the cursor at
    [m_base_offset + m_model_offset], and reshuffles the used indices when
    the reader shuffles and leaves them and the generator alone when it
    does not; a call that returns [true] leaves both alone.  With
    positive strides every pass ends: a run of calls returning [true] is
    followed by one call returning [false]. *)
Theorem update_wraparound s :
  ((update s).2 = false ↔ getNumData s.2 ≤ get_next_position s.2)
  ∧ ((update s).2 = false →
       CurrentPos (update s).1.2 = m_base_offset s.2 + m_model_offset s.2
       ∧ (m_shuffle s.2 ≠ 0 →
            ((update s).1.1, ShuffledIndices (update s).1.2)
              = std_shuffle s.1 (ShuffledIndices s.2)
            ∧ ShuffledIndices (update s).1.2 ≡ₚ ShuffledIndices s.2)
       ∧ (m_shuffle s.2 = 0 →
            (update s).1.1 = s.1
            ∧ ShuffledIndices (update s).1.2 = ShuffledIndices s.2))
  ∧ ((update s).2 = true →
       (update s).1.1 = s.1
       ∧ ShuffledIndices (update s).1.2 = ShuffledIndices s.2
       ∧ CurrentPos (update s).1.2 = get_next_position s.2)
  ∧ (0 < m_stride s.2 →
     (m_use_alt_last_mini_batch_size s.2 = true →
        0 < m_last_mini_batch_stride s.2) →
     ∃ k : nat, (update_n (S k) s).2 = replicate k true ++ [false]).
Proof.
  split; [|split; [|split]].
  - rewrite update_returns. by rewrite Z.ltb_ge.
  - intros Hf. rewrite (update_false s Hf). simpl.
    split; [done|]. split.
    + intros Hsh. destruct (Z.eqb_spec (m_shuffle s.2) 0) as [|_]; [done|].
      unfold shuffle_indices; simpl.
      pose proof (std_shuffle_perm s.1 (ShuffledIndices s.2)) as Hp.
      destruct (std_shuffle s.1 (ShuffledIndices s.2)) as [g l]. done.
    + intros ->. done.
  - intros Ht. by rewrite (update_true s Ht).
  - intros Hs Ha.
    apply (pass_terminates (Z.to_nat (getNumData s.2 - CurrentPos s.2)) s Hs Ha).
    lia.
Qed.

End Cursor.

(** The state [Sample.late_reader] is reached by [setup] and 49 calls
    of [update]. *)
Example late_reader_reached :
  Sample.second_reader_late = Some (1, Sample.late_reader).
Proof. vm_compute. reflexivity. Qed.

Lemma alt_mode_advance_witness :
  CurrentPos (update_advance Sample.late_reader) = 990 + 13
  ∧ getBatchSize Sample.late_reader = 10.
Proof.
  destruct (alt_mode_advance (G := Sample.cut_generator) (1, Sample.late_reader))
    as (Hadv & Hsize & _); [reflexivity | reflexivity |].
  split; [exact Hadv | exact Hsize].
Defined.

(** C3, as the claim has it, fails: the second of two readers, at
    position 990 with stride 20 and threshold 1000, is beyond the
    condition of [update()], and [getBatchSize()] still returns the batch
    size 10, not the last-mini-batch size 2. *)
Lemma alt_size_not_before_threshold :
  m_use_alt_last_mini_batch_size Sample.late_reader = true
  ∧ CurrentPos Sample.late_reader + m_stride Sample.late_reader
      > m_last_mini_batch_threshold Sample.late_reader
  ∧ getBatchSize Sample.late_reader = BatchSize Sample.late_reader
  ∧ getBatchSize Sample.late_reader
      ≠ m_last_mini_batch_size Sample.late_reader.
Proof. repeat split. vm_compute. discriminate. Qed.

Lemma update_wraparound_witness :
  ∃ k : nat,
    (update_n (G := Sample.cut_generator) (S k) (1, Sample.late_reader)).2
      = replicate k true ++ [false].
Proof.
  destruct (update_wraparound (G := Sample.cut_generator) (1, Sample.late_reader))
    as (_ & _ & _ & Hpass).
  apply Hpass; [reflexivity | intros _; reflexivity].
Defined.

(** ** The index sets *)

Lemma std_sort_perm (l : list Z) : std_sort l ≡ₚ l.
Proof. apply merge_sort_Permutation. Qed.

Lemma std_sort_sorted (l : list Z) : StronglySorted Z.le (std_sort l).
Proof. apply (StronglySorted_merge_sort Z.le); apply _. Qed.

Lemma std_sort_length (l : list Z) : length (std_sort l) = length l.
Proof. apply Permutation_length, std_sort_perm. Qed.

Lemma MIN_clamp (k n : Z) : k ≤ n → MIN k n = k.
Proof. unfold MIN. intros Hk. destruct (Z.ltb_spec k n); lia. Qed.

Lemma to_long_small (x : Z) : 0 ≤ x ≤ LONG_MAX → to_long x = x.
Proof.
  unfold to_long, SIZE_MOD, LONG_MAX. intros Hx.
  rewrite Z.mod_small; lia.
Qed.

Section IndexSets.

Context `{G : Generator}.

Implicit Types (s : rng_gen * DataReader) (r : DataReader).

Lemma shuffle_indices_perm s :
  ShuffledIndices (shuffle_indices s).2 ≡ₚ ShuffledIndices s.2.
Proof.
  unfold shuffle_indices.
  pose proof (std_shuffle_perm s.1 (ShuffledIndices s.2)) as Hp.
  by destruct (std_shuffle s.1 (ShuffledIndices s.2)).
Qed.

(** [select_subset_of_data] for a count within the used set, first
    branch: the first [k] indices stay, the others become the unused
    set. *)
Lemma select_first_eq s (k : Z) :
  fits_int s.2 → 0 < k ≤ Z.of_nat (length (ShuffledIndices s.2)) →
  select_subset_of_data k true s =
    (s.1, set_ShuffledIndices (take (Z.to_nat k) (ShuffledIndices s.2))
            (set_unused_indices (drop (Z.to_nat k) (ShuffledIndices s.2)) s.2)).
Proof.
  intros Hfit Hk. unfold select_subset_of_data.
  destruct (Z.eqb_spec k 0) as [|_]; [lia|].
  rewrite getNumData_fits by done.
  rewrite to_size_t_small by (unfold fits_int, INT_MAX, SIZE_MOD in *; lia).
  rewrite MIN_clamp by lia. simpl.
  destruct s as [g r]. simpl in *.
  rewrite resize_le by lia. done.
Qed.

(** The same for the second branch: shuffle, split, sort both parts. *)
Lemma select_random_eq s (k : Z) :
  fits_int s.2 → 0 < k ≤ Z.of_nat (length (ShuffledIndices s.2)) →
  select_subset_of_data k false s =
    let s1 := shuffle_indices s in
    (s1.1,
     set_unused_indices (std_sort (drop (Z.to_nat k) (ShuffledIndices s1.2)))
       (set_ShuffledIndices (std_sort (take (Z.to_nat k) (ShuffledIndices s1.2)))
          s1.2)).
Proof.
  intros Hfit Hk. unfold select_subset_of_data.
  destruct (Z.eqb_spec k 0) as [|_]; [lia|].
  rewrite getNumData_fits by done.
  rewrite to_size_t_small by (unfold fits_int, INT_MAX, SIZE_MOD in *; lia).
  rewrite MIN_clamp by lia. simpl.
  pose proof (shuffle_indices_perm s) as Hp.
  apply Permutation_length in Hp.
  destruct (shuffle_indices s) as [g1 r1]. simpl in *.
  rewrite resize_le by lia. done.
Qed.

(** C7: for [0 < k ≤ n], [select_subset_of_data(k, true)] leaves as used
    indices the first [k] of the used indices in the order they had, and
    as unused indices the other [n - k] in the order they had; the
    generator is not consulted, and nothing is sorted. *)
Theorem select_first_n s (k : Z) :
  fits_int s.2 → 0 < k ≤ Z.of_nat (length (ShuffledIndices s.2)) →
  let s' := select_subset_of_data k true s in
  s'.1 = s.1
  ∧ ShuffledIndices s'.2 = take (Z.to_nat k) (ShuffledIndices s.2)
  ∧ m_unused_indices s'.2 = drop (Z.to_nat k) (ShuffledIndices s.2)
  ∧ Z.of_nat (length (ShuffledIndices s'.2)) = k
  ∧ Z.of_nat (length (m_unused_indices s'.2))
      = Z.of_nat (length (ShuffledIndices s.2)) - k
  ∧ ShuffledIndices s'.2 ++ m_unused_indices s'.2 = ShuffledIndices s.2.
Proof.
  intros Hfit Hk. simpl. rewrite select_first_eq by done. simpl.
  rewrite length_take, length_drop, take_drop.
  repeat split; lia.
Qed.

(** C6: for a used set without repetitions and [0 < k ≤ n],
    [select_subset_of_data(k, false)] leaves [k] used indices in
    ascending order and the unused indices in ascending order; no index
    is in both, and together they are the used indices from before. *)
Theorem select_random_subset s (k : Z) :
  fits_int s.2 → NoDup (ShuffledIndices s.2) →
  0 < k ≤ Z.of_nat (length (ShuffledIndices s.2)) →
  let s' := select_subset_of_data k false s in
  Z.of_nat (length (ShuffledIndices s'.2)) = k
  ∧ StronglySorted Z.le (ShuffledIndices s'.2)
  ∧ StronglySorted Z.le (m_unused_indices s'.2)
  ∧ (∀ x, x ∈ ShuffledIndices s'.2 → x ∉ m_unused_indices s'.2)
  ∧ ShuffledIndices s'.2 ++ m_unused_indices s'.2 ≡ₚ ShuffledIndices s.2
  ∧ (∀ x, x ∈ ShuffledIndices s'.2 ∨ x ∈ m_unused_indices s'.2
          ↔ x ∈ ShuffledIndices s.2).
Proof.
  intros Hfit Hnd Hk. simpl. rewrite select_random_eq by done. simpl.
  pose proof (shuffle_indices_perm s) as Hp.
  set (l := ShuffledIndices (shuffle_indices s).2) in *.
  assert (Hall : std_sort (take (Z.to_nat k) l) ++ std_sort (drop (Z.to_nat k) l)
                 ≡ₚ ShuffledIndices s.2).
  { rewrite !std_sort_perm, take_drop. done. }
  assert (Hnd' : NoDup (std_sort (take (Z.to_nat k) l)
                        ++ std_sort (drop (Z.to_nat k) l))).
  { by rewrite Hall. }
  apply NoDup_app in Hnd' as (_ & Hdisj & _).
  split; [|split; [|split; [|split; [|split]]]].
  - rewrite std_sort_length, length_take.
    apply Permutation_length in Hp. lia.
  - apply std_sort_sorted.
  - apply std_sort_sorted.
  - exact Hdisj.
  - exact Hall.
  - intros x. rewrite <- Hall, elem_of_app. done.
Qed.

(** A selection never lengthens the used set. *)
Lemma select_subset_length s (k : Z) (firstN : bool) :
  fits_int s.2 → 0 ≤ k →
  (length (ShuffledIndices (select_subset_of_data k firstN s).2)
   ≤ length (ShuffledIndices s.2))%nat.
Proof.
  intros Hfit Hk.
  destruct (Z.eqb_spec k 0) as [->|Hk0]; [done|].
  destruct (Z.le_gt_cases k (Z.of_nat (length (ShuffledIndices s.2)))) as [Hle|Hgt].
  - destruct firstN.
    + rewrite select_first_eq by (done || lia). simpl.
      rewrite length_take. lia.
    + rewrite select_random_eq by (done || lia). simpl.
      rewrite std_sort_length, length_take.
      pose proof (shuffle_indices_perm s) as Hp.
      apply Permutation_length in Hp. lia.
  - unfold select_subset_of_data.
    destruct (Z.eqb_spec k 0) as [|_]; [lia|].
    rewrite getNumData_fits by done.
    rewrite to_size_t_small by (unfold fits_int, INT_MAX, SIZE_MOD in *; lia).
    unfold MIN. destruct (Z.ltb_spec k (Z.of_nat (length (ShuffledIndices s.2))));
      [lia|].
    rewrite Nat2Z.id.
    pose proof (shuffle_indices_perm s) as Hp.
    apply Permutation_length in Hp.
    destruct firstN; simpl.
    + destruct s as [g r]; simpl. by rewrite length_resize.
    + destruct (shuffle_indices s) as [g1 r1]; simpl in *.
      rewrite std_sort_length, length_resize. done.
Qed.

(** C8: [trim_data_set] takes as count the integer nearest to the
    product of the number of used indices and the fraction, the product
    being the one the code computes, rounded to a double, and a tie
    going to the even integer.  For a count that is a [long] or a
    [size_t]: when the count is negative or exceeds the number of used
    indices the call throws and the reader and the generator are as
    before; otherwise the call is [select_subset_of_data] with that
    count, and it returns the number of used indices afterwards.  A
    product that is a NaN or an infinity has no count. *)
Theorem trim_data_set_contract s (use_percentage : spec_float) (firstN : bool) :
  fits_int s.2 →
  let n := getNumData s.2 in
  let product := double_mul (double_of_int n) use_percentage in
  (double_value product = None →
     trim_data_set use_percentage firstN s = (s, Undefined))
  ∧ ∀ q, double_value product = Some q →
      let count := rint q in
      rint_double product = Some count
      ∧ (inject_Z count - (1 # 2) <= q <= inject_Z count + (1 # 2))%Q
      ∧ (LONG_MIN ≤ count < SIZE_MOD →
         (count < 0 ∨ n < count →
            trim_data_set use_percentage firstN s
              = (s, Throw "data reader trim error: invalid number of samples selected"))
         ∧ (0 ≤ count ≤ n →
            let s' := select_subset_of_data count firstN s in
            trim_data_set use_percentage firstN s = (s', Ret (getNumData s'.2))
            ∧ getNumData s'.2 = Z.of_nat (length (ShuffledIndices s'.2)))).
Proof.
  intros Hfit n product.
  pose proof (getNumData_range s.2 Hfit) as Hn. fold n in Hn.
  split.
  { intros Hnone. unfold trim_data_set, rint_double. fold n. fold product.
    by rewrite Hnone. }
  intros q Hq count.
  assert (Hrint : rint_double product = Some count)
    by (unfold rint_double; by rewrite Hq).
  split; [done|]. split; [apply rint_nearest|].
  intros Hrange.
  unfold trim_data_set. fold n. fold product. rewrite Hrint.
  rewrite (to_size_t_small n) by (unfold INT_MAX, SIZE_MOD in *; lia).
  split.
  - intros Hbad.
    destruct (Z.lt_ge_cases count 0) as [Hneg|Hpos].
    + rewrite to_size_t_negative
        by (unfold LONG_MIN, LONG_MAX, SIZE_MOD in *; lia).
      destruct (Z.gtb_spec (count + SIZE_MOD) n) as [_|Hle]; [done|].
      unfold LONG_MIN, LONG_MAX, SIZE_MOD, INT_MAX in *. lia.
    + rewrite to_size_t_small
        by (unfold LONG_MIN, LONG_MAX, SIZE_MOD in *; lia).
      destruct (Z.gtb_spec count n) as [_|Hle]; [done|lia].
  - intros Hok.
    rewrite (to_size_t_small count)
      by (unfold LONG_MIN, LONG_MAX, SIZE_MOD in *; lia).
    destruct (Z.gtb_spec count n) as [|_]; [lia|].
    rewrite to_long_small by (unfold LONG_MAX, INT_MAX in *; lia).
    destruct (Z.ltb_spec count 0) as [|_]; [lia|]. simpl.
    assert (Hfit' : fits_int (select_subset_of_data count firstN s).2).
    { unfold fits_int in *.
      pose proof (select_subset_length s count firstN Hfit (proj1 Hok)). lia. }
    pose proof (getNumData_range _ Hfit') as Hn'.
    rewrite to_size_t_small by (unfold INT_MAX, SIZE_MOD in *; lia).
    split; [done|]. by apply getNumData_fits.
Qed.

End IndexSets.

(** ** Fetching from the ImageNet reader *)

Lemma at_index_Ret {A : Type} (l : list A) (i : Z) :
  0 ≤ i < Z.of_nat (length l) →
  ∃ a, l !! Z.to_nat i = Some a ∧ at_index l i = Ret a.
Proof.
  intros Hi. unfold at_index.
  destruct (Z.ltb_spec i 0) as [|_]; [lia|].
  destruct (lookup_lt_is_Some_2 l (Z.to_nat i)) as [a Ha]; [lia|].
  exists a. by rewrite Ha.
Qed.

Section Fetch.

Context `{IO : ImageIO}.

Implicit Types (r : DataReader_ImageNet) (X Y : gmap (Z * Z) DataType).

(** The entry that the loops look up at position [n]. *)
Lemma lookup_entry r (n : Z) :
  indices_in_catalog r →
  0 ≤ n < Z.of_nat (length (ShuffledIndices (base r))) →
  ∃ index,
    at_index (ShuffledIndices (base r)) n = Ret index
    ∧ at_index (ImageList r) index = Ret (entry_at r n).
Proof.
  intros Hcat Hn.
  destruct (at_index_Ret (ShuffledIndices (base r)) n Hn) as (index & Hl & Hat).
  exists index. split; [done|].
  unfold indices_in_catalog in Hcat. rewrite Forall_lookup in Hcat.
  specialize (Hcat _ _ Hl).
  destruct (at_index_Ret (ImageList r) index Hcat) as (entry & Hl' & Hat').
  rewrite Hat'. unfold entry_at. rewrite Hl. simpl. by rewrite Hl'.
Qed.

Lemma fetch_label_loop_spec r (todo : nat) (n : Z) Y :
  fits_int (base r) → indices_in_catalog r →
  0 ≤ CurrentPos (base r) ≤ n →
  let stop := Z.min (n + Z.of_nat todo) (Z.max n (getNumData (base r))) in
  ∃ Y',
    fetch_label_loop todo n r Y = (Y', Ret stop)
    ∧ ∀ i j, Y' !! (i, j) =
        if decide (n ≤ CurrentPos (base r) + j < stop
                   ∧ i = (entry_at r (CurrentPos (base r) + j)).2)
        then Some DataType_one else Y !! (i, j).
Proof.
  intros Hfit Hcat. revert n Y.
  induction todo as [|todo IH]; intros n Y Hn stop.
  - exists Y. split.
    + simpl. do 2 f_equal. unfold stop. lia.
    + intros i j. case_decide; [unfold stop in *; lia|done].
  - simpl. destruct (Z.geb_spec n (getNumData (base r))) as [Hge|Hlt].
    + exists Y. split.
      * do 2 f_equal. unfold stop. lia.
      * intros i j. case_decide; [unfold stop in *; lia|done].
    + rewrite getNumData_fits in Hlt by done.
      destruct (lookup_entry r n Hcat) as (index & -> & ->); [lia|].
      destruct (IH (n + 1)
                  (Mat_Set (entry_at r n).2 (n - CurrentPos (base r)) DataType_one Y))
        as (Y' & HY' & Hlook); [lia|].
      rewrite getNumData_fits in HY', Hlook by done.
      assert (Hstop : stop = Z.min (n + 1 + Z.of_nat todo)
                               (Z.max (n + 1)
                                  (Z.of_nat (length (ShuffledIndices (base r)))))).
      { unfold stop. rewrite getNumData_fits by done. lia. }
      exists Y'. split; [by rewrite HY', Hstop|].
      intros i j. rewrite Hlook, <- Hstop. unfold Mat_Set.
      destruct (decide (CurrentPos (base r) + j = n)) as [Hj|Hj].
      * assert (j = n - CurrentPos (base r)) as -> by lia.
        replace (CurrentPos (base r) + (n - CurrentPos (base r))) with n by lia.
        destruct (decide (i = (entry_at r n).2)) as [->|Hi].
        -- rewrite lookup_insert_eq.
           rewrite decide_False by lia.
           rewrite decide_True; [done|].
           split; [|done]. unfold stop. rewrite getNumData_fits by done. lia.
        -- rewrite lookup_insert_ne by congruence.
           rewrite decide_False by lia.
           rewrite decide_False; [done|]. intros [_ ?]. done.
      * rewrite lookup_insert_ne by (intros [= _ ?]; lia).
        repeat case_decide; try done; exfalso; intuition lia.
Qed.

Lemma copy_pixels_spec (count : nat) (p k : Z) (pixels : list Z) X :
  0 ≤ p → p + Z.of_nat count ≤ Z.of_nat (length pixels) →
  ∃ X',
    copy_pixels count p k pixels X = (X', Ret tt)
    ∧ ∀ i j, X' !! (i, j) =
        if decide (j = k ∧ p ≤ i < p + Z.of_nat count)
        then Some (pixel_value (default 0 (pixels !! Z.to_nat i)))
        else X !! (i, j).
Proof.
  revert p X. induction count as [|count IH]; intros p X Hp Hlen.
  - exists X. split; [done|].
    intros i j. case_decide; [lia|done].
  - simpl.
    destruct (at_index_Ret pixels p) as (v & Hv & ->); [lia|].
    destruct (IH (p + 1) (Mat_Set p k (pixel_value v) X)) as (X' & -> & Hlook);
      [lia|lia|].
    exists X'. split; [done|].
    intros i j. rewrite Hlook. unfold Mat_Set.
    destruct (decide (i = p ∧ j = k)) as [[-> ->]|Hne].
    + rewrite lookup_insert_eq, Hv. simpl.
      rewrite decide_False by lia. rewrite decide_True by lia. done.
    + rewrite lookup_insert_ne by (intros [= ? ?]; by apply Hne).
      repeat case_decide; try done; exfalso; lia.
Qed.

Lemma fetch_data_loop_spec r (todo : nat) (n : Z) X :
  fits_int (base r) → indices_in_catalog r → images_load r →
  0 ≤ CurrentPos (base r) ≤ n →
  let stop := Z.min (n + Z.of_nat todo) (Z.max n (getNumData (base r))) in
  ∃ r' X',
    fetch_data_loop todo n r X = (r', X', Ret stop)
    ∧ base r' = base r
    ∧ ImageList r' = ImageList r
    ∧ ∀ p j, X' !! (p, j) =
        if decide (n ≤ CurrentPos (base r) + j < stop
                   ∧ 0 ≤ p < m_image_width r * m_image_height r)
        then Some (pixel_value
                     (default 0 (pixels_at r (CurrentPos (base r) + j)
                                   !! Z.to_nat p)))
        else X !! (p, j).
Proof.
  revert n X r.
  induction todo as [|todo IH]; intros n X r Hfit Hcat Hload Hn stop.
  - exists r, X. split; [|split; [done|split; [done|]]].
    + simpl. do 2 f_equal. unfold stop. lia.
    + intros p j. case_decide; [unfold stop in *; lia|done].
  - simpl. destruct (Z.geb_spec n (getNumData (base r))) as [Hge|Hlt].
    + exists r, X. split; [|split; [done|split; [done|]]].
      * do 2 f_equal. unfold stop. lia.
      * intros p j. case_decide; [unfold stop in *; lia|done].
    + rewrite getNumData_fits in Hlt by done.
      destruct (lookup_entry r n Hcat) as (index & -> & ->); [lia|].
      destruct (Hload n) as (pixels & Hjpg & Hlen); [lia|].
      assert (Hpix : pixels_at r n = pixels) by (unfold pixels_at; by rewrite Hjpg).
      rewrite Hjpg. simpl. rewrite !Z.eqb_refl. simpl.
      destruct (copy_pixels_spec
                  (Z.to_nat (m_image_width r * m_image_height r)) 0
                  (n - CurrentPos (base r)) pixels X)
        as (X1 & -> & Hlook1); [lia|lia|].
      destruct (IH (n + 1) X1 (set_pixels pixels r))
        as (r' & X' & HX' & Hbase & Hlist & Hlook); [done|done|done|simpl; lia|].
      simpl in HX', Hbase, Hlist, Hlook.
      rewrite getNumData_fits in HX', Hlook by done.
      assert (Hstop : stop = Z.min (n + 1 + Z.of_nat todo)
                               (Z.max (n + 1)
                                  (Z.of_nat (length (ShuffledIndices (base r)))))).
      { unfold stop. rewrite getNumData_fits by done. lia. }
      exists r', X'. split; [by rewrite HX', Hstop|].
      split; [done|]. split; [done|].
      intros p j. rewrite Hlook, <- Hstop, Hlook1.
      change (pixels_at (set_pixels pixels r)) with (pixels_at r).
      destruct (decide (CurrentPos (base r) + j = n)) as [Hj|Hj].
      * assert (j = n - CurrentPos (base r)) as -> by lia.
        replace (CurrentPos (base r) + (n - CurrentPos (base r))) with n by lia.
        rewrite Hpix.
        assert (n < stop)
          by (unfold stop; rewrite getNumData_fits by done; lia).
        repeat case_decide; try done; exfalso; lia.
      * repeat case_decide; try done; exfalso; lia.
Qed.

End Fetch.

Section FetchContract.

Context `{IO : ImageIO}.

Implicit Types (r : DataReader_ImageNet) (X Y : gmap (Z * Z) DataType).

(** C9: [fetch_data] and [fetch_label] return 0 and write nothing when
    the cursor is at or past the number of used indices.  Otherwise, for a
    cursor that is not negative and used indices that designate entries of
    the image list, [fetch_label] returns [count], the batch size of
    [getBatchSize()] (0 if that is negative) or the number of used
    indices from the cursor on if that is smaller; positions
    [CurrentPos .. CurrentPos + count - 1] are read, all below the number
    of used indices, column [j] for [0 ≤ j < count] receives the value 1
    in the row of the label at position [CurrentPos + j], and no other
    entry of the matrix changes.  When the images decode, [fetch_data]
    returns the same [count], fills the rows of one image plane in those
    columns with the pixel values of the image at that position, changes
    no other entry, and leaves the cursor and the index sets alone. *)
Theorem fetch_contract r X Y :
  (getNumData (base r) ≤ CurrentPos (base r) →
     fetch_data r X = (r, X, Ret 0) ∧ fetch_label r Y = (Y, Ret 0))
  ∧ (CurrentPos (base r) < getNumData (base r) →
     fits_int (base r) → 0 ≤ CurrentPos (base r) → indices_in_catalog r →
     let pos := CurrentPos (base r) in
     let count :=
       Z.min (Z.max 0 (getBatchSize (base r)))
             (Z.of_nat (length (ShuffledIndices (base r))) - pos) in
     0 ≤ count
     ∧ pos + count ≤ Z.of_nat (length (ShuffledIndices (base r)))
     ∧ (0 ≤ getBatchSize (base r) →
        count = Z.min (getBatchSize (base r))
                  (Z.of_nat (length (ShuffledIndices (base r))) - pos))
     ∧ (∃ Y',
          fetch_label r Y = (Y', Ret count)
          ∧ ∀ i j, Y' !! (i, j) =
              if decide (0 ≤ j < count ∧ i = (entry_at r (pos + j)).2)
              then Some DataType_one else Y !! (i, j))
     ∧ (images_load r →
        ∃ r' X',
          fetch_data r X = (r', X', Ret count)
          ∧ base r' = base r
          ∧ ∀ p j, X' !! (p, j) =
              if decide (0 ≤ j < count
                         ∧ 0 ≤ p < m_image_width r * m_image_height r)
              then Some (pixel_value
                           (default 0 (pixels_at r (pos + j) !! Z.to_nat p)))
              else X !! (p, j))).
Proof.
  split.
  - intros Hpast. unfold fetch_data, fetch_label, position_valid.
    destruct (Z.ltb_spec (CurrentPos (base r)) (getNumData (base r)));
      [lia|done].
  - intros Hvalid Hfit Hpos Hcat pos count.
    pose proof Hvalid as Hvalid'. rewrite getNumData_fits in Hvalid' by done.
    assert (Hstop :
      Z.min (pos + Z.of_nat (Z.to_nat (getBatchSize (base r))))
            (Z.max pos (getNumData (base r))) = pos + count).
    { unfold count. rewrite getNumData_fits by done. fold pos in Hvalid'. lia. }
    split; [unfold count; fold pos in Hvalid'; lia|].
    split; [unfold count; lia|].
    split; [unfold count; lia|].
    split.
    + destruct (fetch_label_loop_spec r
                  (Z.to_nat (getBatchSize (base r))) pos Y)
        as (Y' & HY' & Hlook); [done|done|unfold pos; lia|].
      fold pos in HY', Hlook. rewrite Hstop in HY', Hlook.
      exists Y'. split.
      * unfold fetch_label, position_valid.
        destruct (Z.ltb_spec (CurrentPos (base r)) (getNumData (base r)));
          [|lia].
        simpl. fold pos. rewrite HY'. simpl.
        unfold mret, outcome_ret. do 2 f_equal. lia.
      * intros i j. rewrite Hlook.
        repeat case_decide; try done; exfalso; intuition lia.
    + intros Hload.
      destruct (fetch_data_loop_spec r
                  (Z.to_nat (getBatchSize (base r))) pos X)
        as (r' & X' & HX' & Hbase & _ & Hlook);
        [done|done|done|unfold pos; lia|].
      fold pos in HX', Hlook. rewrite Hstop in HX', Hlook.
      exists r', X'. split; [|split; [done|]].
      * unfold fetch_data, position_valid.
        destruct (Z.ltb_spec (CurrentPos (base r)) (getNumData (base r)));
          [|lia].
        simpl. fold pos. rewrite HX'. simpl.
        unfold mret, outcome_ret. do 2 f_equal. lia.
      * intros p j. rewrite Hlook.
        repeat case_decide; try done; exfalso; intuition lia.
Qed.

End FetchContract.

Lemma fetch_contract_witness :
  (∃ Y', fetch_label Sample.loaded_tail ∅ = (Y', Ret 1))
  ∧ (∃ r' X', fetch_data Sample.loaded_tail ∅ = (r', X', Ret 1)).
Proof.
  destruct (fetch_contract (IO := Sample.sample_io) Sample.loaded_tail ∅ ∅)
    as [_ Hfetch].
  destruct Hfetch as (_ & _ & _ & (Y' & HY' & _) & Hdata).
  - reflexivity.
  - vm_compute. discriminate.
  - vm_compute. discriminate.
  - unfold indices_in_catalog. vm_compute.
    repeat constructor; discriminate.
  - destruct Hdata as (r' & X' & HX' & _).
    + intros n Hn. eexists. split; [reflexivity|]. vm_compute. discriminate.
    + split; [exists Y'; exact HY' | exists r', X'; exact HX'].
Defined.

(** ** Loading *)

Lemma fill_indices (g : nat → Z) (m k : nat) (l : list Z) :
  length l = (k + m)%nat →
  foldl (fun l n => <[n := g n]> l) l (seq k m) = take k l ++ (g <$> seq k m).
Proof.
  revert k l. induction m as [|m IH]; intros k l Hlen.
  - simpl. rewrite app_nil_r, take_ge by lia. done.
  - simpl. rewrite IH by (rewrite length_insert; lia).
    rewrite (take_S_r _ _ (g k)) by (apply list_lookup_insert_eq; lia).
    rewrite take_insert_ge by lia.
    by rewrite <- app_assoc.
Qed.

(** The loop of [load] leaves the indices [0, 1, ..] in order. *)
Lemma reset_indices_eq (size : nat) :
  reset_indices size = (fun n => to_int (Z.of_nat n)) <$> seq 0 size.
Proof.
  unfold reset_indices.
  rewrite fill_indices by (rewrite length_replicate; lia). done.
Qed.

Lemma reset_indices_seqZ (size : nat) :
  Z.of_nat size ≤ INT_MAX + 1 →
  reset_indices size = seqZ 0 (Z.of_nat size).
Proof.
  intros Hsize. rewrite reset_indices_eq.
  apply list_eq. intros i. rewrite list_lookup_fmap.
  destruct (decide (i < size)%nat) as [Hi|Hi].
  - rewrite lookup_seq_lt by done. simpl.
    rewrite lookup_seqZ_lt by lia.
    rewrite to_int_small by (unfold INT_MAX in *; lia). f_equal; lia.
  - rewrite lookup_seq_ge by lia. rewrite lookup_seqZ_ge by lia. done.
Qed.

Section Loading.

Context `{IO : ImageIO}.

(** A successful [load] sets the image list and the used indices, and
    does not write the unused indices: they are those of the reader
    before the call. *)
Lemma load_success (imageDir imageListFile : string) (r : DataReader_ImageNet)
    (entries : list (string * Z)) :
  read_image_list imageListFile = Some entries →
  let r' := (load imageDir imageListFile r).1 in
  (load imageDir imageListFile r).2 = true
  ∧ ImageList r' = entries
  ∧ ShuffledIndices (base r') = reset_indices (length entries)
  ∧ m_unused_indices (base r') = m_unused_indices (base r).
Proof.
  intros Hfile. unfold load. rewrite Hfile. done.
Qed.

(** On a reader that has no unused indices, such as a new one, a
    successful [load] of [n] items gives the used indices [0 .. n-1] and
    no unused index. *)
Lemma load_fresh (imageDir imageListFile : string) (r : DataReader_ImageNet)
    (entries : list (string * Z)) :
  read_image_list imageListFile = Some entries →
  m_unused_indices (base r) = [] →
  Z.of_nat (length entries) ≤ INT_MAX →
  let r' := (load imageDir imageListFile r).1 in
  ShuffledIndices (base r') = seqZ 0 (Z.of_nat (length entries))
  ∧ m_unused_indices (base r') = [].
Proof.
  intros Hfile Hunused Hlen.
  destruct (load_success imageDir imageListFile r entries Hfile)
    as (_ & _ & Hused & Hkeep).
  simpl. rewrite Hused, Hkeep, Hunused.
  rewrite reset_indices_seqZ by lia. done.
Qed.

End Loading.

(** C5 at a reader that was loaded before: a new reader loads five
    images and keeps the first two, so that the indices 2, 3 and 4 are
    unused; it then loads a list of three images.  The used indices are 0,
    1 and 2, and the unused indices are still 2, 3 and 4: the unused set
    is not empty, it shares the index 2 with the used set, and 3 and 4
    designate no entry of the image list. *)
Theorem load_keeps_stale_unused :
  Sample.reloaded.2 = true
  ∧ length (ImageList Sample.reloaded.1) = 3%nat
  ∧ ShuffledIndices (base Sample.reloaded.1) = [0; 1; 2]
  ∧ m_unused_indices (base Sample.reloaded.1) = [2; 3; 4]
  ∧ m_unused_indices (base Sample.reloaded.1) ≠ []
  ∧ 2 ∈ ShuffledIndices (base Sample.reloaded.1)
  ∧ 2 ∈ m_unused_indices (base Sample.reloaded.1).
Proof.
  assert (Hused : ShuffledIndices (base Sample.reloaded.1) = [0; 1; 2])
    by (vm_compute; reflexivity).
  assert (Hunused : m_unused_indices (base Sample.reloaded.1) = [2; 3; 4])
    by (vm_compute; reflexivity).
  split; [vm_compute; reflexivity|].
  split; [vm_compute; reflexivity|].
  split; [exact Hused|]. split; [exact Hunused|].
  rewrite Hused, Hunused.
  split; [discriminate|]. split; set_solver.
Qed.

(** ** Traffic accounting *)

Lemma model_broadcast_counts (sizeof_T root : Z) (c : lbann_comm) :
  (rank_in_model c = root →
     bytes_sent (model_broadcast sizeof_T root c)
       = to_size_t (bytes_sent c + sizeof_T)
     ∧ bytes_received (model_broadcast sizeof_T root c) = bytes_received c)
  ∧ (rank_in_model c ≠ root →
     bytes_received (model_broadcast sizeof_T root c)
       = to_size_t (bytes_received c + sizeof_T)
     ∧ bytes_sent (model_broadcast sizeof_T root c) = bytes_sent c).
Proof.
  unfold model_broadcast, get_rank_in_model.
  split; intros Hr; destruct (Z.eqb_spec (rank_in_model c) root); done.
Qed.

Lemma send_recv_counts (sizeof_T count model rank : Z) (c : lbann_comm) :
  0 < sizeof_T → 0 ≤ count → sizeof_T * count < SIZE_MOD →
  bytes_sent (send sizeof_T count model rank c)
    = to_size_t (bytes_sent c + count * sizeof_T)
  ∧ bytes_received (recv sizeof_T count model rank c)
    = to_size_t (bytes_received c + count * sizeof_T).
Proof.
  intros Hs Hc Hlt. unfold send, recv. simpl.
  assert (Hcount : to_size_t count = count)
    by (apply to_size_t_small; unfold SIZE_MOD in *; nia).
  rewrite Hcount, (to_size_t_small (sizeof_T * count)) by nia.
  by rewrite (Z.mul_comm count).
Qed.

(** The broadcast to a list of ranks writes no counter. *)
Lemma broadcast_counts_nothing (sizeof_T count : Z) (dests : list Z) (root : Z)
    (c : lbann_comm) :
  broadcast sizeof_T count dests root c = c.
Proof. reflexivity. Qed.

(** C2 at three processes, counters at zero, and one 4-byte value.  The
    broadcast within the model from rank 0 counts 4 bytes sent at the
    root and 8 bytes received at the two peers.  The broadcast to the
    ranks 1 and 2 from root 0 counts nothing: 0 bytes sent at the root
    and 0 bytes received at the peers.  The inter-model broadcast from
    the process of model 1 counts nothing sent at that process, and 4
    bytes received at each of the three processes, the root among
    them. *)
Theorem broadcast_accounting_gaps :
  (let after := collective (model_broadcast 4 0) Sample.one_model in
   bytes_sent <$> after = [4; 0; 0] ∧ total bytes_received after = 8)
  ∧ (let after := collective (broadcast 4 1 [1; 2] 0) Sample.one_model in
     bytes_sent <$> after = [0; 0; 0] ∧ total bytes_received after = 0)
  ∧ (let after := collective (intermodel_broadcast 4 1)
                    Sample.first_of_each_model in
     bytes_sent <$> after = [0; 0; 0]
     ∧ bytes_received <$> after = [4; 4; 4]).
Proof. cbv zeta. repeat split; vm_compute; reflexivity. Qed.

(** ** The statements at concrete readers *)

Lemma select_first_n_witness :
  let s' := select_subset_of_data (G := Sample.cut_generator) 2 true
              (1, Sample.reader_of 5 2) in
  ShuffledIndices s'.2 = [0; 1] ∧ m_unused_indices s'.2 = [2; 3; 4].
Proof.
  destruct (select_first_n (G := Sample.cut_generator)
              (1, Sample.reader_of 5 2) 2)
    as (_ & Hused & Hunused & _).
  - vm_compute. discriminate.
  - vm_compute. split; [reflexivity | discriminate].
  - split; [exact Hused | exact Hunused].
Defined.

Lemma select_random_subset_witness :
  let s' := select_subset_of_data (G := Sample.cut_generator) 2 false
              (1, Sample.reader_of 5 2) in
  Z.of_nat (length (ShuffledIndices s'.2)) = 2
  ∧ StronglySorted Z.le (ShuffledIndices s'.2)
  ∧ StronglySorted Z.le (m_unused_indices s'.2).
Proof.
  destruct (select_random_subset (G := Sample.cut_generator)
              (1, Sample.reader_of 5 2) 2)
    as (Hlen & Hused & Hunused & _).
  - vm_compute. discriminate.
  - apply NoDup_seqZ.
  - vm_compute. split; [reflexivity | discriminate].
  - split; [exact Hlen|]. split; [exact Hused | exact Hunused].
Defined.

(** The doubles of 0.025, 0.0005, 0.1, -0.1 and 1.05 times 100, 1000, 5,
    5 and 10 samples: the products are the doubles 2.5, 0.5, 0.5, -0.5
    and 10.5, whose ties [rint] sends to the even integers 2, 0, 0, -0
    and 10; no call throws. *)
Example trim_data_set_ties :
  (trim_data_set (G := Sample.cut_generator) (Sample.fraction 1 40) true
     (1, Sample.reader_of 100 10)).2 = Ret 2
  ∧ (trim_data_set (G := Sample.cut_generator) (Sample.fraction 1 2000) true
       (1, Sample.reader_of 1000 10)).2 = Ret 1000
  ∧ (trim_data_set (G := Sample.cut_generator) (Sample.fraction 1 10) true
       (1, Sample.reader_of 5 10)).2 = Ret 5
  ∧ (trim_data_set (G := Sample.cut_generator) (Sample.fraction (-1) 10) true
       (1, Sample.reader_of 5 10)).2 = Ret 5
  ∧ (trim_data_set (G := Sample.cut_generator) (Sample.fraction 21 20) true
       (1, Sample.reader_of 10 10)).2 = Ret 10.
Proof. repeat split; vm_compute; reflexivity. Qed.

(** The conversion of an [int] to [double] keeps its value, here at 0,
    100, -7 and the largest [int]. *)
Example double_of_int_exact :
  double_value (double_of_int 0) = Some 0%Q
  ∧ (default 0%Q (double_value (double_of_int 100)) == 100)%Q
  ∧ (default 0%Q (double_value (double_of_int (-7))) == -7)%Q
  ∧ (default 0%Q (double_value (double_of_int INT_MAX))
       == inject_Z INT_MAX)%Q.
Proof. repeat split. Qed.

Lemma trim_data_set_contract_witness :
  trim_data_set (G := Sample.cut_generator) (Sample.fraction (-1) 10) false
      (1, Sample.reader_of 100 10)
    = ((1, Sample.reader_of 100 10),
       Throw "data reader trim error: invalid number of samples selected")
  ∧ (trim_data_set (G := Sample.cut_generator) (Sample.fraction 1 40) true
       (1, Sample.reader_of 100 10)).2 = Ret 2.
Proof.
  split.
  - destruct (trim_data_set_contract (G := Sample.cut_generator)
                (1, Sample.reader_of 100 10) (Sample.fraction (-1) 10) false)
      as (_ & Hcount).
    + vm_compute. discriminate.
    + edestruct Hcount as (_ & _ & Hcases); [vm_compute; reflexivity|].
      destruct Hcases as [Hthrow _];
        [vm_compute; split; [discriminate | reflexivity]|].
      apply Hthrow. left. vm_compute. reflexivity.
  - destruct (trim_data_set_contract (G := Sample.cut_generator)
                (1, Sample.reader_of 100 10) (Sample.fraction 1 40) true)
      as (_ & Hcount).
    + vm_compute. discriminate.
    + edestruct Hcount as (_ & _ & Hcases); [vm_compute; reflexivity|].
      destruct Hcases as [_ Hok];
        [vm_compute; split; [discriminate | reflexivity]|].
      destruct Hok as [-> _]; [vm_compute; split; discriminate|].
      vm_compute. reflexivity.
Defined.

Lemma get_next_position_is_update_advance_witness :
  CurrentPos (update (G := Sample.cut_generator) (1, Sample.late_reader)).1.2
    = get_next_position Sample.late_reader
  ∧ get_next_position Sample.late_reader = 1003.
Proof.
  destruct (get_next_position_is_update_advance (G := Sample.cut_generator)
              (1, Sample.late_reader))
    as (_ & Hnext & _ & Hmoved).
  split; [apply Hmoved; reflexivity | exact Hnext].
Defined.

(** * Further properties *)

(** ** The cursor over many calls *)

Lemma getNumData_perm (r r' : DataReader) :
  ShuffledIndices r' ≡ₚ ShuffledIndices r → getNumData r' = getNumData r.
Proof.
  intros Hp. unfold getNumData. by rewrite (Permutation_length Hp).
Qed.

Lemma same_setup_refl (r : DataReader) : same_setup r r.
Proof. unfold same_setup. repeat split; done. Qed.

Lemma same_setup_trans (r1 r2 r3 : DataReader) :
  same_setup r1 r2 → same_setup r2 r3 → same_setup r1 r3.
Proof.
  unfold same_setup.
  intros (?&?&?&?&?&?&?&?&?&?&?) (?&?&?&?&?&?&?&?&?&?&?).
  repeat split; try congruence. by etrans.
Qed.

Section CursorRuns.

Context `{G : Generator}.

Implicit Types (s : rng_gen * DataReader) (r : DataReader).

Lemma shuffle_indices_same_setup s : same_setup s.2 (shuffle_indices s).2.
Proof.
  pose proof (shuffle_indices_perm s) as Hp.
  unfold shuffle_indices in *.
  destruct (std_shuffle s.1 (ShuffledIndices s.2)) as [g l]. simpl in *.
  unfold same_setup. simpl. repeat split; done.
Qed.

Lemma update_same_setup s : same_setup s.2 (update s).1.2.
Proof.
  destruct ((update s).2) eqn:Hb.
  - rewrite (update_true s Hb). simpl. unfold same_setup. repeat split; done.
  - rewrite (update_false s Hb). simpl.
    destruct (m_shuffle s.2 =? 0).
    + simpl. unfold same_setup. repeat split; done.
    + pose proof (shuffle_indices_same_setup
                    (s.1, set_CurrentPos (get_next_position s.2) s.2)) as Hs.
      unfold same_setup in *. simpl in *. exact Hs.
Qed.

Lemma update_n_state n s :
  (update_n (S n) s).1 = (update_n n (update s).1).1.
Proof. by rewrite update_n_S. Qed.

(** X1: calls of [update()] never change what a reader is set up with:
    after any number of calls the batch size, the stride, the offsets,
    the shuffle flag and the last-mini-batch parameters are the same, the
    unused indices are the same, the used indices are the same up to
    their order, and every call has returned a value. *)
Theorem update_n_keeps_setup (n : nat) s :
  same_setup s.2 (update_n n s).1.2
  ∧ getNumData (update_n n s).1.2 = getNumData s.2
  ∧ length (update_n n s).2 = n.
Proof.
  revert s. induction n as [|n IH]; intros s.
  - simpl. split; [apply same_setup_refl|done].
  - rewrite update_n_S. simpl.
    destruct (IH (update s).1) as (Hsame & Hnum & Hlen).
    pose proof (update_same_setup s) as Hstep.
    split; [by eapply same_setup_trans|].
    split; [|by rewrite Hlen].
    rewrite Hnum. apply getNumData_perm.
    by destruct Hstep as (_&_&_&_&_&_&_&_&_&?&_).
Qed.

Lemma update_in_range s :
  0 ≤ m_base_offset s.2 + m_model_offset s.2 < getNumData s.2 →
  0 ≤ m_stride s.2 →
  (m_use_alt_last_mini_batch_size s.2 = true → 0 ≤ m_last_mini_batch_stride s.2) →
  0 ≤ CurrentPos s.2 →
  0 ≤ CurrentPos (update s).1.2 < getNumData s.2.
Proof.
  intros Hoff Hs Ha Hpos.
  assert (Hnext : CurrentPos s.2 ≤ get_next_position s.2).
  { unfold get_next_position.
    destruct (m_use_alt_last_mini_batch_size s.2); simpl; [|lia].
    specialize (Ha eq_refl). destruct (_ >? _); lia. }
  destruct ((update s).2) eqn:Hb.
  - rewrite (update_true s Hb). simpl.
    rewrite update_returns in Hb. apply Z.ltb_lt in Hb. lia.
  - rewrite (update_false s Hb). simpl. lia.
Qed.

(** X2: with offsets that designate a used position, strides that are
    not negative and a cursor that is not negative, the cursor designates
    a used position after every call of [update()], however many are
    made: it is never negative and always below the number of used
    indices, so that a fetch finds a position to read. *)
Theorem cursor_stays_in_range (n : nat) s :
  0 ≤ m_base_offset s.2 + m_model_offset s.2 < getNumData s.2 →
  0 ≤ m_stride s.2 →
  (m_use_alt_last_mini_batch_size s.2 = true → 0 ≤ m_last_mini_batch_stride s.2) →
  0 ≤ CurrentPos s.2 < getNumData s.2 →
  0 ≤ CurrentPos (update_n n s).1.2 < getNumData (update_n n s).1.2
  ∧ position_valid (update_n n s).1.2 = true.
Proof.
  intros Hoff Hs Ha Hpos.
  assert (Hrange : 0 ≤ CurrentPos (update_n n s).1.2
                   < getNumData (update_n n s).1.2).
  { revert s Hoff Hs Ha Hpos. induction n as [|n IH]; intros s Hoff Hs Ha Hpos.
    - done.
    - rewrite update_n_state.
      pose proof (update_same_setup s) as (_&_&Hst&Hbo&Hmo&Hua&_&_&Hls&Hperm&_).
      pose proof (getNumData_perm _ _ Hperm) as Hnum.
      pose proof (update_in_range s Hoff Hs Ha (proj1 Hpos)) as Hin.
      apply IH.
      + rewrite Hbo, Hmo, Hnum. done.
      + by rewrite Hst.
      + rewrite Hua, Hls. done.
      + by rewrite Hnum. }
  split; [done|]. unfold position_valid. apply Z.ltb_lt. lia.
Qed.

Lemma plain_run (i : nat) s :
  m_use_alt_last_mini_batch_size s.2 = false →
  0 < m_stride s.2 →
  CurrentPos s.2 + Z.of_nat i * m_stride s.2 < getNumData s.2 →
  update_n i s
    = ((s.1, set_CurrentPos (CurrentPos s.2 + Z.of_nat i * m_stride s.2) s.2),
       replicate i true).
Proof.
  revert s. induction i as [|i IH]; intros s Halt Hs Hlt.
  - simpl. destruct s as [g r]. simpl. do 2 f_equal.
    destruct r. unfold set_CurrentPos. simpl. f_equal. lia.
  - assert (Hnext : get_next_position s.2 = CurrentPos s.2 + m_stride s.2).
    { unfold get_next_position. by rewrite Halt. }
    assert (Hb : (update s).2 = true).
    { rewrite update_returns, Hnext. apply Z.ltb_lt. nia. }
    rewrite update_n_S, Hb, (update_true s Hb), Hnext.
    rewrite IH; [|done|done|].
    + unfold set_CurrentPos. simpl.
      replace (CurrentPos s.2 + m_stride s.2 + Z.of_nat i * m_stride s.2)
        with (CurrentPos s.2 + Z.of_nat (S i) * m_stride s.2) by lia.
      done.
    + change (CurrentPos s.2 + m_stride s.2 + Z.of_nat i * m_stride s.2
              < getNumData s.2). nia.
Qed.

(** X3: without the last-mini-batch mode, with a positive stride and
    the cursor on a used position, a pass makes
    [(getNumData - 1 - CurrentPos) / stride] calls that return [true],
    the cursor moving by one stride at each, and the call after them
    returns [false] and puts the cursor at the two offsets. *)
Theorem plain_pass_length s :
  m_use_alt_last_mini_batch_size s.2 = false →
  0 < m_stride s.2 →
  CurrentPos s.2 < getNumData s.2 →
  let k := Z.to_nat ((getNumData s.2 - 1 - CurrentPos s.2) `div` m_stride s.2) in
  (update_n (S k) s).2 = replicate k true ++ [false]
  ∧ (∀ i : nat, (i ≤ k)%nat →
       CurrentPos (update_n i s).1.2
         = CurrentPos s.2 + Z.of_nat i * m_stride s.2
       ∧ getBatchSize (update_n i s).1.2 = BatchSize s.2)
  ∧ CurrentPos (update_n (S k) s).1.2 = m_base_offset s.2 + m_model_offset s.2.
Proof.
  intros Halt Hs Hpos k.
  set (d := (getNumData s.2 - 1 - CurrentPos s.2) `div` m_stride s.2) in *.
  assert (Hd : 0 ≤ d) by (apply Z.div_pos; lia).
  assert (Hk : Z.of_nat k = d) by (unfold k; lia).
  assert (Hlo : CurrentPos s.2 + d * m_stride s.2 < getNumData s.2).
  { pose proof (Z.mul_div_le (getNumData s.2 - 1 - CurrentPos s.2)
                  (m_stride s.2) Hs). fold d in H. lia. }
  assert (Hhi : getNumData s.2 ≤ CurrentPos s.2 + (d + 1) * m_stride s.2).
  { pose proof (Z.mul_succ_div_gt (getNumData s.2 - 1 - CurrentPos s.2)
                  (m_stride s.2) Hs). fold d in H. lia. }
  assert (Hrun : ∀ i : nat, (i ≤ k)%nat →
            update_n i s
            = ((s.1, set_CurrentPos
                       (CurrentPos s.2 + Z.of_nat i * m_stride s.2) s.2),
               replicate i true)).
  { intros i Hi. apply plain_run; [done|done|nia]. }
  assert (Hlast : ∀ s', update_n 1 s' = ((update s').1, [(update s').2])).
  { intros s'. rewrite update_n_S. done. }
  assert (Hsplit : ∀ (i : nat) s',
            update_n (S i) s'
            = ((update (update_n i s').1).1,
               (update_n i s').2 ++ [(update (update_n i s').1).2])).
  { induction i as [|i IH]; intros s'.
    - rewrite Hlast. done.
    - rewrite update_n_S, IH, (update_n_S i). done. }
  set (sk := (s.1, set_CurrentPos
                     (CurrentPos s.2 + Z.of_nat k * m_stride s.2) s.2)).
  assert (Hfalse : (update sk).2 = false).
  { rewrite update_returns. apply Z.ltb_ge.
    unfold get_next_position, sk. simpl. rewrite Halt. simpl.
    change (getNumData (set_CurrentPos _ s.2)) with (getNumData s.2). nia. }
  split; [|split].
  - rewrite Hsplit, (Hrun k) by lia. simpl. fold sk. by rewrite Hfalse.
  - intros i Hi. rewrite (Hrun i Hi). simpl. split; [done|].
    unfold getBatchSize. simpl. by rewrite Halt.
  - rewrite Hsplit, (Hrun k) by lia. simpl. fold sk.
    rewrite (update_false sk Hfalse). done.
Qed.

End CursorRuns.

(** ** More on the index sets *)

(** X4: [swap_used_and_unused_index_sets()] exchanges the two index
    vectors, changes nothing else and returns [true]; a second call gives
    the reader back as it was. *)
Theorem swap_twice (r : DataReader) :
  let r1 := (swap_used_and_unused_index_sets r).1 in
  (swap_used_and_unused_index_sets r).2 = true
  ∧ ShuffledIndices r1 = m_unused_indices r
  ∧ m_unused_indices r1 = ShuffledIndices r
  ∧ CurrentPos r1 = CurrentPos r
  ∧ (swap_used_and_unused_index_sets r1).1 = r.
Proof. destruct r. repeat split. Qed.

Section MoreIndexSets.

Context `{G : Generator}.

Implicit Types (s : rng_gen * DataReader) (r : DataReader).

(** [select_subset_of_data] for any count but zero: the count is
    clamped, and the cut is made after an optional shuffle. *)
Lemma select_subset_eq s (k : Z) (firstN : bool) :
  fits_int s.2 → 0 < k →
  select_subset_of_data k firstN s =
    let m := Z.to_nat (Z.min k (Z.of_nat (length (ShuffledIndices s.2)))) in
    let s1 := if firstN then s else shuffle_indices s in
    let used := take m (ShuffledIndices s1.2) in
    let unused := drop m (ShuffledIndices s1.2) in
    (s1.1,
     if firstN
     then set_ShuffledIndices used (set_unused_indices unused s1.2)
     else set_unused_indices (std_sort unused)
            (set_ShuffledIndices (std_sort used) s1.2)).
Proof.
  intros Hfit Hk. unfold select_subset_of_data.
  destruct (Z.eqb_spec k 0) as [|_]; [lia|].
  rewrite getNumData_fits by done.
  rewrite to_size_t_small by (unfold fits_int, INT_MAX, SIZE_MOD in *; lia).
  assert (HMIN : MIN k (Z.of_nat (length (ShuffledIndices s.2)))
                 = Z.min k (Z.of_nat (length (ShuffledIndices s.2)))).
  { unfold MIN. destruct (Z.ltb_spec k (Z.of_nat (length (ShuffledIndices s.2))));
      lia. }
  rewrite HMIN. simpl.
  pose proof (shuffle_indices_perm s) as Hp.
  apply Permutation_length in Hp.
  destruct firstN; simpl.
  - destruct s as [g r]. simpl in *. rewrite resize_le by lia. done.
  - destruct (shuffle_indices s) as [g1 r1]. simpl in *.
    rewrite resize_le by lia. done.
Qed.

(** X5: for any count but zero, whether it is clamped or not and
    whichever way the subset is chosen, the used and the unused indices
    after [select_subset_of_data] are together the used indices from
    before: the indices that were unused before the call are in neither
    set afterwards. *)
Theorem select_subset_drops_old_unused s (k : Z) (firstN : bool) :
  fits_int s.2 → 0 < k →
  let s' := select_subset_of_data k firstN s in
  ShuffledIndices s'.2 ++ m_unused_indices s'.2 ≡ₚ ShuffledIndices s.2
  ∧ Z.of_nat (length (ShuffledIndices s'.2))
      = Z.min k (Z.of_nat (length (ShuffledIndices s.2)))
  ∧ (∀ x, x ∉ ShuffledIndices s.2 →
          (x ∉ ShuffledIndices s'.2) ∧ (x ∉ m_unused_indices s'.2)).
Proof.
  intros Hfit Hk. simpl. rewrite select_subset_eq by done. simpl.
  pose proof (shuffle_indices_perm s) as Hp.
  set (m := Z.to_nat (Z.min k (Z.of_nat (length (ShuffledIndices s.2))))).
  assert (Hall :
    ShuffledIndices
      (if firstN
       then set_ShuffledIndices (take m (ShuffledIndices s.2))
              (set_unused_indices (drop m (ShuffledIndices s.2)) s.2)
       else set_unused_indices
              (std_sort (drop m (ShuffledIndices (shuffle_indices s).2)))
              (set_ShuffledIndices
                 (std_sort (take m (ShuffledIndices (shuffle_indices s).2)))
                 (shuffle_indices s).2))
    ++ m_unused_indices
      (if firstN
       then set_ShuffledIndices (take m (ShuffledIndices s.2))
              (set_unused_indices (drop m (ShuffledIndices s.2)) s.2)
       else set_unused_indices
              (std_sort (drop m (ShuffledIndices (shuffle_indices s).2)))
              (set_ShuffledIndices
                 (std_sort (take m (ShuffledIndices (shuffle_indices s).2)))
                 (shuffle_indices s).2))
    ≡ₚ ShuffledIndices s.2).
  { destruct firstN; simpl.
    - by rewrite take_drop.
    - by rewrite !std_sort_perm, take_drop. }
  destruct firstN; simpl in *.
  - split; [done|]. split; [rewrite length_take; lia|].
    intros x Hx. rewrite <- Hall in Hx. rewrite elem_of_app in Hx. tauto.
  - split; [done|]. split.
    + rewrite std_sort_length, length_take.
      apply Permutation_length in Hp. lia.
    + intros x Hx. rewrite <- Hall in Hx. rewrite elem_of_app in Hx. tauto.
Qed.

(** X6: a count at or above the number of used indices keeps them all
    and leaves no unused index, whatever was unused before the call;
    with [firstN] the used indices keep their order, without it they are
    put in ascending order. *)
Theorem select_subset_clamped s (k : Z) (firstN : bool) :
  fits_int s.2 → 0 < k → Z.of_nat (length (ShuffledIndices s.2)) ≤ k →
  let s' := select_subset_of_data k firstN s in
  m_unused_indices s'.2 = []
  ∧ ShuffledIndices s'.2 ≡ₚ ShuffledIndices s.2
  ∧ (firstN = true → ShuffledIndices s'.2 = ShuffledIndices s.2 ∧ s'.1 = s.1)
  ∧ (firstN = false → ShuffledIndices s'.2 = std_sort (ShuffledIndices s.2)).
Proof.
  intros Hfit Hk Hn. simpl. rewrite select_subset_eq by done. simpl.
  pose proof (shuffle_indices_perm s) as Hp.
  pose proof (Permutation_length Hp) as Hlen.
  rewrite Z.min_r by lia. rewrite Nat2Z.id.
  destruct firstN; simpl.
  - rewrite drop_all, firstn_all. repeat split; done.
  - rewrite <- Hlen at 1. rewrite drop_all.
    rewrite <- Hlen, firstn_all.
    split; [done|]. split; [by rewrite std_sort_perm|].
    split; [done|]. intros _.
    apply (StronglySorted_unique Z.le).
    + apply std_sort_sorted.
    + apply std_sort_sorted.
    + by rewrite !std_sort_perm.
Qed.

(** X7: a fraction whose product with the number of used indices, as
    the code computes it in [double], is rounded to zero by [rint] does
    not empty the used set: [trim_data_set] changes nothing and returns
    the number of used indices. *)
Theorem trim_to_zero_keeps_all s (use_percentage : spec_float) (firstN : bool) :
  fits_int s.2 →
  rint_double (double_mul (double_of_int (getNumData s.2)) use_percentage)
    = Some 0 →
  trim_data_set use_percentage firstN s = (s, Ret (getNumData s.2)).
Proof.
  intros Hfit Hzero.
  pose proof (getNumData_range s.2 Hfit) as Hn.
  unfold trim_data_set. rewrite Hzero.
  change (to_size_t 0) with 0. change (to_long 0) with (0).
  rewrite (to_size_t_small (getNumData s.2))
    by (unfold INT_MAX, SIZE_MOD in *; lia).
  destruct (Z.gtb_spec 0 (getNumData s.2)) as [|_]; [lia|]. simpl.
  unfold select_subset_of_data. simpl.
  rewrite (to_size_t_small (getNumData s.2))
    by (unfold INT_MAX, SIZE_MOD in *; lia).
  done.
Qed.

(** X8: [setup] puts the cursor at the sum of the two offsets and
    records the stride and the offsets; it keeps the batch size, the
    unused indices and, up to their order, the used indices, and on a
    reader that does not shuffle it keeps their order and the generator.
    Without a communicator it always returns, and it never leaves the
    last-mini-batch mode: the mode is on afterwards if it was on before
    or a communicator is given. *)
Theorem setup_effect (base_offset stride model_offset : Z)
    (comm : option lbann_comm) s :
  (comm = None → ∃ s', setup base_offset stride model_offset comm s = Ret s')
  ∧ ∀ s', setup base_offset stride model_offset comm s = Ret s' →
      CurrentPos s'.2 = base_offset + model_offset
      ∧ m_stride s'.2 = stride
      ∧ m_base_offset s'.2 = base_offset
      ∧ m_model_offset s'.2 = model_offset
      ∧ BatchSize s'.2 = BatchSize s.2
      ∧ m_unused_indices s'.2 = m_unused_indices s.2
      ∧ ShuffledIndices s'.2 ≡ₚ ShuffledIndices s.2
      ∧ m_use_alt_last_mini_batch_size s'.2
          = m_use_alt_last_mini_batch_size s.2 || bool_decide (is_Some comm)
      ∧ (m_shuffle s.2 = 0 →
           ShuffledIndices s'.2 = ShuffledIndices s.2 ∧ s'.1 = s.1).
Proof.
  split.
  - intros ->. unfold setup. simpl. eexists. reflexivity.
  - intros s' Hs'. unfold setup in Hs'.
    set (r0 := set_offsets base_offset stride model_offset s.2) in *.
    assert (Hmid : ∃ r1,
      s' = (if m_shuffle r1 =? 0
            then (s.1, set_CurrentPos (m_base_offset r1 + m_model_offset r1) r1)
            else shuffle_indices
                   (s.1, set_CurrentPos (m_base_offset r1 + m_model_offset r1) r1))
      ∧ m_stride r1 = stride ∧ m_base_offset r1 = base_offset
      ∧ m_model_offset r1 = model_offset ∧ BatchSize r1 = BatchSize s.2
      ∧ m_unused_indices r1 = m_unused_indices s.2
      ∧ ShuffledIndices r1 = ShuffledIndices s.2
      ∧ m_shuffle r1 = m_shuffle s.2
      ∧ m_use_alt_last_mini_batch_size r1
          = m_use_alt_last_mini_batch_size s.2 || bool_decide (is_Some comm)).
    { destruct comm as [c|]; simpl in Hs'.
      - destruct (calculate_multi_model_data_distribution c r0) as [r'| |] eqn:Hc;
          simpl in Hs'; try discriminate.
        injection Hs' as <-. exists (set_use_alt true r').
        unfold calculate_multi_model_data_distribution in Hc.
        destruct (num_parallel_readers_per_model c r0); simpl in Hc;
          try discriminate.
        destruct (num_whole_mini_batches r0); simpl in Hc; try discriminate.
        destruct (partial_mini_batch_size c r0); simpl in Hc; try discriminate.
        destruct (am_world_master c), (get_rank_in_model c <? _);
          injection Hc as <-; simpl;
          rewrite orb_true_r; repeat split; done.
      - injection Hs' as <-. exists r0. simpl.
        rewrite orb_false_r. repeat split; done. }
    destruct Hmid as (r1 & -> & Hst & Hbo & Hmo & Hbs & Hun & Hus & Hsh & Hua).
    set (r2 := set_CurrentPos (m_base_offset r1 + m_model_offset r1) r1).
    pose proof (shuffle_indices_same_setup (s.1, r2))
      as (Hbs'&_&Hst'&Hbo'&Hmo'&Hua'&_&_&_&Hperm&Hun').
    pose proof (shuffle_indices_perm (s.1, r2)) as Hp.
    assert (Hpos : CurrentPos (shuffle_indices (s.1, r2)).2 = CurrentPos r2).
    { unfold shuffle_indices. by destruct (std_shuffle _ _). }
    rewrite <- Hsh.
    destruct (Z.eqb_spec (m_shuffle r1) 0) as [Hz|Hnz]; simpl in *.
    + rewrite Hbo, Hmo. repeat split; try done. by rewrite Hus.
    + split_and!; simpl in *; congruence.
Qed.

End MoreIndexSets.

(** ** More on the mini-batch distribution *)

(** X9: [calculate_multi_model_data_distribution] has a result exactly
    when none of its four divisors is zero, that is, when the number of
    models, the batch size and the stride are not zero and the stride
    holds at least one batch for each model; it never throws, and it
    writes the three last-mini-batch members and nothing else. *)
Theorem distribution_defined (comm : lbann_comm) (r : DataReader) :
  ((∃ r', calculate_multi_model_data_distribution comm r = Ret r')
   ↔ get_num_models comm ≠ 0 ∧ BatchSize r ≠ 0 ∧ m_stride r ≠ 0
     ∧ m_stride r ÷ get_num_models comm ÷ BatchSize r ≠ 0)
  ∧ (∀ msg, calculate_multi_model_data_distribution comm r ≠ Throw msg)
  ∧ (∀ r', calculate_multi_model_data_distribution comm r = Ret r' →
       ∃ threshold size stride, r' = set_last_mini_batch threshold size stride r).
Proof.
  unfold calculate_multi_model_data_distribution, partial_mini_batch_size,
    num_parallel_readers_per_model, num_whole_mini_batches, int_div.
  destruct (Z.eqb_spec (get_num_models comm) 0) as [Hm|Hm]; simpl.
  { split; [split; [intros [? [=]]|lia]|]. split; [done|]. intros ? [=]. }
  destruct (Z.eqb_spec (BatchSize r) 0) as [Hb|Hb]; simpl.
  { split; [split; [intros [? [=]]|lia]|]. split; [done|]. intros ? [=]. }
  destruct (Z.eqb_spec (m_stride r) 0) as [Hs|Hs]; simpl.
  { split; [split; [intros [? [=]]|lia]|]. split; [done|]. intros ? [=]. }
  destruct (Z.eqb_spec
              (get_num_models comm
               * (m_stride r ÷ get_num_models comm ÷ BatchSize r)) 0)
    as [Hr|Hr]; simpl.
  { split; [split; [intros [? [=]]|nia]|]. split; [done|]. intros ? [=]. }
  split; [|split].
  - split; [intros _; repeat split; try done; nia|].
    intros _. destruct (am_world_master comm), (get_rank_in_model comm <? _);
      eexists; reflexivity.
  - intros msg. by destruct (am_world_master comm), (get_rank_in_model comm <? _).
  - intros r'. destruct (am_world_master comm), (get_rank_in_model comm <? _);
      intros [= <-]; eauto.
Qed.

(** The distribution in closed form, for a stride of one batch for each
    reader of each model. *)
Lemma distribution_closed_form (comm : lbann_comm) (r : DataReader) (R : Z) :
  fits_int r → 0 < BatchSize r → 0 < get_num_models comm → 0 < R →
  m_stride r = BatchSize r * get_num_models comm * R →
  0 ≤ get_rank_in_model comm < R →
  let n := getNumData r in
  let T := m_stride r * (n `div` m_stride r) in
  let p := (n - T) `div` (get_num_models comm * R) in
  let rem := (n - T) `mod` (get_num_models comm * R) in
  let q := reader_index comm R in
  let size := p + (if am_world_master comm then rem else 0) in
  calculate_multi_model_data_distribution comm r
    = Ret (set_last_mini_batch T size
             (BatchSize r * (get_num_models comm * R - q) + size * q
              + (if am_world_master comm then 0 else rem)) r).
Proof.
  intros Hfit HB HM HR HS Hj n T p rem q size.
  pose proof (getNumData_range r Hfit) as Hn. fold n in Hn.
  assert (HSpos : 0 < m_stride r) by nia.
  assert (Hreaders : num_parallel_readers_per_model comm r = Ret R).
  { unfold num_parallel_readers_per_model.
    rewrite int_div_nonzero by lia. simpl.
    rewrite int_div_nonzero by lia. f_equal.
    rewrite HS.
    replace (BatchSize r * get_num_models comm * R)
      with (BatchSize r * R * get_num_models comm) by lia.
    rewrite Z.quot_mul by lia.
    rewrite (Z.mul_comm (BatchSize r)). apply Z.quot_mul. lia. }
  assert (Hwhole : num_whole_mini_batches r = Ret (n `div` m_stride r)).
  { rewrite num_whole_mini_batches_quot by lia. f_equal.
    apply Z.quot_div_nonneg; lia. }
  assert (Hleft : 0 ≤ n - T).
  { unfold T. pose proof (Z.mul_div_le n (m_stride r) HSpos). lia. }
  assert (Hpartial : partial_mini_batch_size comm r = Ret p).
  { unfold partial_mini_batch_size. rewrite Hreaders, Hwhole. simpl.
    rewrite int_div_nonzero by nia. f_equal.
    fold n. replace (n - n `div` m_stride r * m_stride r) with (n - T)
      by (unfold T; lia).
    apply Z.quot_div_nonneg; [lia|nia]. }
  unfold calculate_multi_model_data_distribution.
  rewrite Hreaders, Hwhole, Hpartial. simpl. fold n.
  assert (Hrem : n - n `div` m_stride r * m_stride r
                 - p * get_num_models comm * R = rem).
  { unfold rem. rewrite Z.mod_eq by nia. fold p. unfold T. lia. }
  rewrite Hrem.
  destruct (Z.ltb_spec (get_rank_in_model comm) R) as [_|]; [|lia].
  unfold size, q, reader_index, mret, outcome_ret.
  destruct (am_world_master comm); simpl; f_equal; f_equal; unfold T; lia.
Qed.

(** X10: with a stride of one batch for each of the [R] readers of each
    of the [M] models, the last mini-batches tile the samples beyond the
    threshold [T].  The threshold is the largest multiple of the stride
    within the sample count [n].  The reader of index [q], leaving its
    last full mini-batch at [T - stride + q * batch], arrives at
    [T + p * q] (plus [rem] unless it is the world master, [q = 0]),
    where [p] and [rem] are quotient and remainder of [n - T] by the
    number of readers; there [getBatchSize()] is [p], and [p + rem] for
    the world master; each reader ends where the next one begins, and
    the last one ends at [n]. *)
Theorem last_mini_batches_tile (comm : lbann_comm) (r : DataReader) (R : Z) :
  fits_int r → 0 < BatchSize r → 0 < get_num_models comm → 0 < R →
  m_stride r = BatchSize r * get_num_models comm * R →
  0 ≤ get_model_rank comm < get_num_models comm →
  0 ≤ get_rank_in_model comm < R →
  (am_world_master comm = true ↔ reader_index comm R = 0) →
  let n := getNumData r in
  let T := m_stride r * (n `div` m_stride r) in
  let p := (n - T) `div` (get_num_models comm * R) in
  let rem := (n - T) `mod` (get_num_models comm * R) in
  let q := reader_index comm R in
  let start := fun i => T + p * i + (if i =? 0 then 0 else rem) in
  let size := fun i => p + (if i =? 0 then rem else 0) in
  ∃ r',
    calculate_multi_model_data_distribution comm r = Ret r'
    ∧ m_last_mini_batch_threshold r' = T
    ∧ T ≤ n < T + m_stride r
    ∧ 0 ≤ p ∧ 0 ≤ rem < get_num_models comm * R
    ∧ 0 ≤ q < get_num_models comm * R
    ∧ get_next_position
        (set_CurrentPos (T - m_stride r + q * BatchSize r) (set_use_alt true r'))
      = start q
    ∧ getBatchSize (set_CurrentPos (start q) (set_use_alt true r')) = size q
    ∧ start 0 = T
    ∧ (∀ i, 0 ≤ i → start i + size i = start (i + 1))
    ∧ start (get_num_models comm * R) = n.
Proof.
  intros Hfit HB HM HR HS Hm Hj Hmaster n T p rem q start size.
  pose proof (getNumData_range r Hfit) as Hn. fold n in Hn.
  assert (HSpos : 0 < m_stride r) by nia.
  assert (HMR : 0 < get_num_models comm * R) by nia.
  assert (HT : T ≤ n < T + m_stride r).
  { unfold T. pose proof (Z.mul_div_le n (m_stride r) HSpos).
    pose proof (Z.mul_succ_div_gt n (m_stride r) HSpos). lia. }
  assert (Hp : 0 ≤ p) by (apply Z.div_pos; lia).
  assert (Hrem : 0 ≤ rem < get_num_models comm * R)
    by (apply Z.mod_pos_bound; lia).
  assert (Hsum : n - T = get_num_models comm * R * p + rem)
    by (apply Z.div_mod; lia).
  assert (Hq : 0 ≤ q < get_num_models comm * R)
    by (unfold q, reader_index; nia).
  eexists. split.
  { apply (distribution_closed_form comm r R); done. }
  fold n T p rem q. simpl.
  split; [done|]. split; [done|]. split; [done|]. split; [done|].
  split; [done|].
  assert (Hcase : (am_world_master comm = true ∧ q = 0)
                  ∨ (am_world_master comm = false ∧ 0 < q)).
  { destruct (am_world_master comm) eqn:Hw.
    - left. split; [done|]. by apply Hmaster.
    - right. split; [done|].
      destruct (decide (q = 0)) as [Hq0|]; [|lia].
      apply Hmaster in Hq0. congruence. }
  split; [|split; [|split; [|split]]].
  - unfold get_next_position, start. simpl.
    destruct Hcase as [[-> Hq0]|[-> Hq0]].
    + rewrite Hq0. simpl.
      destruct (_ >? _); lia.
    + destruct (Z.eqb_spec q 0) as [|_]; [lia|].
      destruct (Z.gtb_spec (T - m_stride r + q * BatchSize r + m_stride r) T)
        as [_|Hle]; [|nia].
      rewrite HS. lia.
  - unfold getBatchSize, start, size. simpl.
    destruct Hcase as [[-> Hq0]|[-> Hq0]].
    + rewrite Hq0. simpl.
      destruct (Z.geb_spec (T + p * 0 + 0) T); [done|lia].
    + destruct (Z.eqb_spec q 0) as [|_]; [lia|].
      destruct (Z.geb_spec (T + p * q + rem) T); [lia|nia].
  - unfold start. simpl. lia.
  - intros i Hi. unfold start, size.
    destruct (Z.eqb_spec i 0), (Z.eqb_spec (i + 1) 0); lia.
  - unfold start.
    destruct (Z.eqb_spec (get_num_models comm * R) 0); lia.
Qed.

(** ** More on loading *)

Lemma seqZ_split (k n : Z) :
  0 ≤ k ≤ n →
  take (Z.to_nat k) (seqZ 0 n) = seqZ 0 k
  ∧ drop (Z.to_nat k) (seqZ 0 n) = seqZ k (n - k).
Proof.
  intros Hk. replace n with (k + (n - k)) at 1 2 by lia.
  rewrite seqZ_app by lia. simpl.
  split.
  - apply take_app_length'. by rewrite length_seqZ.
  - apply drop_app_length'. by rewrite length_seqZ.
Qed.

Section MoreLoading.

Context `{IO : ImageIO} `{G : Generator}.

Implicit Types (r : DataReader_ImageNet) (X Y : gmap (Z * Z) DataType).

(** X11: when the list file cannot be opened, [load] returns [false]
    with the image list emptied and the index sets and the cursor as they
    were; the used indices then designate nothing, and a fetch at a used
    position with a positive batch size reads outside the image list. *)
Theorem load_failure (imageDir imageListFile : string) r X Y :
  read_image_list imageListFile = None →
  let r' := (load imageDir imageListFile r).1 in
  (load imageDir imageListFile r).2 = false
  ∧ ImageList r' = []
  ∧ m_image_dir r' = imageDir
  ∧ base r' = base r
  ∧ (fits_int (base r) →
     0 ≤ CurrentPos (base r) < getNumData (base r) →
     0 < getBatchSize (base r) →
     (fetch_label r' Y).2 = Undefined ∧ (fetch_data r' X).2 = Undefined).
Proof.
  intros Hfile. unfold load. rewrite Hfile. simpl.
  split; [done|]. split; [done|]. split; [done|]. split; [done|].
  intros Hfit Hpos Hbs.
  pose proof Hpos as Hpos'. rewrite getNumData_fits in Hpos' by done.
  destruct (at_index_Ret (ShuffledIndices (base r)) (CurrentPos (base r)) Hpos')
    as (index & _ & Hat).
  assert (Hnone : ∀ i, at_index (@nil (string * Z)) i = Undefined).
  { intros i. unfold at_index. by destruct (i <? 0). }
  destruct (Z.to_nat (getBatchSize (base r))) as [|todo] eqn:Htodo; [lia|].
  unfold fetch_label, fetch_data, position_valid. simpl.
  destruct (Z.ltb_spec (CurrentPos (base r)) (getNumData (base r))) as [_|];
    [|lia].
  simpl. rewrite Htodo. simpl.
  destruct (Z.geb_spec (CurrentPos (base r)) (getNumData (base r))) as [|_];
    [lia|].
  rewrite Hat, Hnone. done.
Qed.

(** X12: [load] with a sample count [0 < k ≤ n] replaces both index
    sets, whatever the reader held before: the list of [n] images is
    stored, the used and the unused indices together are [0 .. n-1], [k]
    of them used; with [firstN] the used indices are [0 .. k-1] and the
    unused ones [k .. n-1], in order, and the generator is not
    consulted. *)
Theorem load_count_success (imageDir imageListFile : string) (k : Z)
    (firstN : bool) (s : rng_gen * DataReader_ImageNet)
    (entries : list (string * Z)) :
  read_image_list imageListFile = Some entries →
  Z.of_nat (length entries) ≤ INT_MAX →
  0 < k ≤ Z.of_nat (length entries) →
  let res := load_count imageDir imageListFile k firstN s in
  let r' := res.1.2 in
  res.2 = Ret true
  ∧ ImageList r' = entries
  ∧ ShuffledIndices (base r') ++ m_unused_indices (base r')
      ≡ₚ seqZ 0 (Z.of_nat (length entries))
  ∧ Z.of_nat (length (ShuffledIndices (base r'))) = k
  ∧ (firstN = true →
       res.1.1 = s.1
       ∧ ShuffledIndices (base r') = seqZ 0 k
       ∧ m_unused_indices (base r') = seqZ k (Z.of_nat (length entries) - k)).
Proof.
  intros Hfile Hlen Hk.
  destruct (load_success imageDir imageListFile s.2 entries Hfile)
    as (Hok & Hlist & Hused & _).
  rewrite reset_indices_seqZ in Hused by lia.
  unfold load_count.
  destruct (load imageDir imageListFile s.2) as [r ok]. simpl in *. subst ok.
  assert (Hfit : fits_int (base r)).
  { unfold fits_int. rewrite Hused, length_seqZ. lia. }
  rewrite getNumData_fits, Hused, length_seqZ by done.
  rewrite to_size_t_small by (unfold INT_MAX, SIZE_MOD in *; lia).
  destruct (Z.gtb_spec k (Z.of_nat (Z.to_nat (Z.of_nat (length entries)))))
    as [|_]; [lia|].
  rewrite to_long_small by (unfold INT_MAX, LONG_MAX in *; lia).
  destruct (Z.ltb_spec k 0) as [|_]; [lia|]. simpl.
  assert (Hk' : 0 < k ≤ Z.of_nat (length (ShuffledIndices (s.1, base r).2))).
  { simpl. rewrite Hused, length_seqZ. lia. }
  destruct (seqZ_split k (Z.of_nat (length entries))) as [Htake Hdrop]; [lia|].
  destruct firstN.
  - rewrite (select_first_eq (s.1, base r) k Hfit Hk'). simpl.
    rewrite Hused, Htake, Hdrop.
    split; [done|]. split; [done|].
    split; [by rewrite <- Htake, <- Hdrop, take_drop|].
    split; [rewrite length_seqZ; lia|]. done.
  - rewrite (select_random_eq (s.1, base r) k Hfit Hk'). simpl.
    pose proof (shuffle_indices_perm (s.1, base r)) as Hp. simpl in Hp.
    destruct (shuffle_indices (s.1, base r)) as [g1 r1]. simpl in *.
    split; [done|]. split; [done|].
    split; [by rewrite !std_sort_perm, take_drop, Hp, Hused|].
    split; [|done].
    rewrite std_sort_length, length_take.
    apply Permutation_length in Hp. rewrite Hused, length_seqZ in Hp. lia.
Qed.

(** X13: a sample count above the number [n] of images makes [load]
    throw, after the reader has been loaded: the image list and the used
    indices [0 .. n-1] of the new list are in place, and the unused
    indices and the generator are as they were. *)
Theorem load_count_too_many (imageDir imageListFile : string) (k : Z)
    (firstN : bool) (s : rng_gen * DataReader_ImageNet)
    (entries : list (string * Z)) :
  read_image_list imageListFile = Some entries →
  Z.of_nat (length entries) ≤ INT_MAX →
  Z.of_nat (length entries) < k < SIZE_MOD →
  let res := load_count imageDir imageListFile k firstN s in
  res.2 = Throw "ImageNet: data reader load error: invalid number of samples selected"
  ∧ res.1.1 = s.1
  ∧ ImageList res.1.2 = entries
  ∧ ShuffledIndices (base res.1.2) = seqZ 0 (Z.of_nat (length entries))
  ∧ m_unused_indices (base res.1.2) = m_unused_indices (base s.2).
Proof.
  intros Hfile Hlen Hk.
  destruct (load_success imageDir imageListFile s.2 entries Hfile)
    as (Hok & Hlist & Hused & Hunused).
  rewrite reset_indices_seqZ in Hused by lia.
  unfold load_count.
  destruct (load imageDir imageListFile s.2) as [r ok]. simpl in *.
  assert (Hfit : fits_int (base r)).
  { unfold fits_int. rewrite Hused, length_seqZ. lia. }
  rewrite getNumData_fits, Hused, length_seqZ by done.
  rewrite to_size_t_small by (unfold INT_MAX, SIZE_MOD in *; lia).
  destruct (Z.gtb_spec k (Z.of_nat (Z.to_nat (Z.of_nat (length entries)))))
    as [_|]; [|lia].
  simpl. done.
Qed.

(** X14: [load] with a fraction is [load] followed by [trim_data_set]
    with that fraction: the same generator and the same reader result,
    and the one throws exactly when the other does; the value returned
    otherwise is the one [load] returned. *)
Theorem load_percentage_is_load_then_trim (imageDir imageListFile : string)
    (use_percentage : spec_float) (firstN : bool)
    (s : rng_gen * DataReader_ImageNet) :
  let loaded := load imageDir imageListFile s.2 in
  let trimmed := trim_data_set use_percentage firstN (s.1, base loaded.1) in
  let res := load_percentage imageDir imageListFile use_percentage firstN s in
  res.1 = (trimmed.1.1, set_base trimmed.1.2 loaded.1)
  ∧ ((∃ msg, res.2 = Throw msg) ↔ (∃ msg, trimmed.2 = Throw msg))
  ∧ ((∃ n, trimmed.2 = Ret n) → res.2 = Ret loaded.2)
  ∧ (res.2 = Undefined ↔ trimmed.2 = Undefined).
Proof.
  simpl. unfold load_percentage, trim_data_set.
  destruct (load imageDir imageListFile s.2) as [r ok]. simpl.
  destruct (rint_double _) as [count|]; simpl.
  - destruct (_ || _); simpl.
    + split; [by destruct r|]. split; [|split; [intros [? [=]]|done]].
      split; intros _; eexists; reflexivity.
    + destruct (select_subset_of_data _ firstN (s.1, base r)) as [g b]. simpl.
      split; [done|]. split; [|split; [done|done]].
      split; intros [? [=]].
  - split; [by destruct r|]. split; [|split; [intros [? [=]]|done]].
    split; intros [? [=]].
Qed.

End MoreLoading.

(** ** A fetch that fails *)

Section FetchFailure.

Context `{IO : ImageIO}.

Implicit Types (r : DataReader_ImageNet) (X : gmap (Z * Z) DataType).

Lemma fetch_data_loop_fail r (todo : nat) (n nfail : Z) X
    (ret : bool) (w h : Z) (px : list Z) :
  fits_int (base r) → indices_in_catalog r →
  0 ≤ CurrentPos (base r) ≤ n →
  n ≤ nfail < n + Z.of_nat todo →
  nfail < Z.of_nat (length (ShuffledIndices (base r))) →
  (∀ n', n ≤ n' < nfail →
     ∃ pixels,
       loadJPG (m_image_dir r +:+ (entry_at r n').1)%string
         = (true, m_image_width r, m_image_height r, pixels)
       ∧ m_image_width r * m_image_height r ≤ Z.of_nat (length pixels)) →
  loadJPG (m_image_dir r +:+ (entry_at r nfail).1)%string = (ret, w, h, px) →
  ret = false ∨ w ≠ m_image_width r ∨ h ≠ m_image_height r →
  ∃ r' X',
    fetch_data_loop todo n r X
      = (r', X',
         Throw (if ret
                then "ImageNet: mismatch data size -- either width or height"
                else "ImageNet: image_utils::loadJPG fauled to load"))
    ∧ base r' = base r
    ∧ m_pixels r' = px
    ∧ ∀ p j, X' !! (p, j) =
        if decide (n ≤ CurrentPos (base r) + j < nfail
                   ∧ 0 ≤ p < m_image_width r * m_image_height r)
        then Some (pixel_value
                     (default 0 (pixels_at r (CurrentPos (base r) + j)
                                   !! Z.to_nat p)))
        else X !! (p, j).
Proof.
  intros Hfit Hcat. revert n X r Hfit Hcat.
  induction todo as [|todo IH];
    intros n X r Hfit Hcat Hn Hnf Hsize Hbefore Hjpg Hbad; [lia|].
  simpl. rewrite getNumData_fits by done.
  destruct (Z.geb_spec n (Z.of_nat (length (ShuffledIndices (base r)))))
    as [|_]; [lia|].
  destruct (lookup_entry r n Hcat) as (index & -> & ->); [lia|].
  destruct (decide (n = nfail)) as [->|Hne].
  - rewrite Hjpg. simpl.
    exists (set_pixels px r), X.
    assert (Hlook : ∀ p j, X !! (p, j) =
              if decide (nfail ≤ CurrentPos (base r) + j < nfail
                         ∧ 0 ≤ p < m_image_width r * m_image_height r)
              then Some (pixel_value
                           (default 0 (pixels_at r (CurrentPos (base r) + j)
                                         !! Z.to_nat p)))
              else X !! (p, j)).
    { intros p j. case_decide; [lia|done]. }
    destruct ret; simpl.
    + destruct Hbad as [|[Hw|Hh]]; [done| |].
      * destruct (Z.eqb_spec w (m_image_width r)); [done|]. simpl. done.
      * destruct (Z.eqb_spec h (m_image_height r)); [done|].
        rewrite orb_true_r. done.
    + done.
  - destruct (Hbefore n) as (pixels & Hok & Hlen); [lia|].
    assert (Hpix : pixels_at r n = pixels) by (unfold pixels_at; by rewrite Hok).
    rewrite Hok. simpl. rewrite !Z.eqb_refl. simpl.
    destruct (copy_pixels_spec
                (Z.to_nat (m_image_width r * m_image_height r)) 0
                (n - CurrentPos (base r)) pixels X)
      as (X1 & -> & Hlook1); [lia|lia|].
    destruct (IH (n + 1) X1 (set_pixels pixels r))
      as (r' & X' & HX' & Hbase & Hpx & Hlook);
      [done|done|simpl; lia|lia|done| |done|done|].
    { intros n' Hn'. apply Hbefore. lia. }
    simpl in HX', Hbase, Hpx, Hlook.
    exists r', X'. split; [done|]. split; [done|]. split; [done|].
    intros p j. rewrite Hlook, Hlook1.
    change (pixels_at (set_pixels pixels r)) with (pixels_at r).
    destruct (decide (CurrentPos (base r) + j = n)) as [Hj|Hj].
    + assert (j = n - CurrentPos (base r)) as -> by lia.
      replace (CurrentPos (base r) + (n - CurrentPos (base r))) with n by lia.
      rewrite Hpix.
      repeat case_decide; try done; exfalso; lia.
    + repeat case_decide; try done; exfalso; lia.
Qed.

(** X15: when the images of the first [j0] positions of a batch decode
    and the next one does not, or not with the expected width and
    height, [fetch_data] throws, with the message of the failed load or
    of the size mismatch; the columns [0 .. j0-1] of the matrix hold the
    images that were decoded, every other entry is as it was, and the
    cursor and the index sets are untouched. *)
Theorem fetch_data_decode_failure r X (j0 : Z) (ret : bool) (w h : Z)
    (px : list Z) :
  fits_int (base r) → indices_in_catalog r →
  0 ≤ CurrentPos (base r) →
  0 ≤ j0 < getBatchSize (base r) →
  CurrentPos (base r) + j0 < Z.of_nat (length (ShuffledIndices (base r))) →
  (∀ j, 0 ≤ j < j0 →
     ∃ pixels,
       loadJPG (m_image_dir r
                +:+ (entry_at r (CurrentPos (base r) + j)).1)%string
         = (true, m_image_width r, m_image_height r, pixels)
       ∧ m_image_width r * m_image_height r ≤ Z.of_nat (length pixels)) →
  loadJPG (m_image_dir r
           +:+ (entry_at r (CurrentPos (base r) + j0)).1)%string
    = (ret, w, h, px) →
  ret = false ∨ w ≠ m_image_width r ∨ h ≠ m_image_height r →
  ∃ r' X',
    fetch_data r X
      = (r', X',
         Throw (if ret
                then "ImageNet: mismatch data size -- either width or height"
                else "ImageNet: image_utils::loadJPG fauled to load"))
    ∧ base r' = base r
    ∧ ∀ p j, X' !! (p, j) =
        if decide (0 ≤ j < j0
                   ∧ 0 ≤ p < m_image_width r * m_image_height r)
        then Some (pixel_value
                     (default 0 (pixels_at r (CurrentPos (base r) + j)
                                   !! Z.to_nat p)))
        else X !! (p, j).
Proof.
  intros Hfit Hcat Hpos Hj0 Hin Hbefore Hjpg Hbad.
  destruct (fetch_data_loop_fail r (Z.to_nat (getBatchSize (base r)))
              (CurrentPos (base r)) (CurrentPos (base r) + j0) X ret w h px)
    as (r' & X' & HX' & Hbase & _ & Hlook);
    [done|done|lia|lia|done| |done|done|].
  { intros n' Hn'.
    replace n' with (CurrentPos (base r) + (n' - CurrentPos (base r))) by lia.
    apply Hbefore. lia. }
  exists r', X'. split; [|split; [done|]].
  - unfold fetch_data, position_valid. rewrite getNumData_fits by done.
    destruct (Z.ltb_spec (CurrentPos (base r))
                (Z.of_nat (length (ShuffledIndices (base r))))); [|lia].
    simpl. rewrite HX'. done.
  - intros p j. rewrite Hlook.
    repeat case_decide; try done; exfalso; lia.
Qed.

End FetchFailure.

(** ** More on the communicator *)

(** X16: the world rank that [get_world_rank] gives a model and a rank
    within it determines both: for ranks below the number of processes of
    a model, quotient and remainder by that number give the model and the
    rank back, so that no two places share a world rank. *)
Theorem world_rank_unique (c : lbann_comm) (model rank model' rank' : Z) :
  0 ≤ rank < procs_per_model c →
  get_world_rank c model rank `div` procs_per_model c = model
  ∧ get_world_rank c model rank `mod` procs_per_model c = rank
  ∧ (0 ≤ rank' < procs_per_model c →
     get_world_rank c model rank = get_world_rank c model' rank' →
     model = model' ∧ rank = rank').
Proof.
  intros Hr. unfold get_world_rank.
  assert (Hdiv : ∀ m k, 0 ≤ k < procs_per_model c →
            (procs_per_model c * m + k) `div` procs_per_model c = m
            ∧ (procs_per_model c * m + k) `mod` procs_per_model c = k).
  { intros m k Hk.
    rewrite (Z.mul_comm (procs_per_model c) m).
    rewrite Z.div_add_l, Z.div_small, Z.add_0_r by lia.
    rewrite Z.add_comm, Z.mod_add, Z.mod_small by lia. done. }
  destruct (Hdiv model rank Hr) as [Hd Hm].
  split; [done|]. split; [done|].
  intros Hr' Heq.
  destruct (Hdiv model' rank' Hr') as [Hd' Hm'].
  rewrite Heq in Hd, Hm. split; congruence.
Qed.

Lemma total_rooted (counter : lbann_comm → Z) (h : Z → lbann_comm)
    (root v w : Z) (l : list Z) :
  NoDup l →
  (∀ i, counter (h i) = if decide (i = root) then w else v) →
  total counter (h <$> l)
    = if decide (root ∈ l) then v * (Z.of_nat (length l) - 1) + w
      else v * Z.of_nat (length l).
Proof.
  intros Hnd Hc. induction Hnd as [|x l Hx Hnd IH]; [simpl; lia|].
  rewrite fmap_cons. unfold total in *. simpl foldr. rewrite IH, Hc.
  simpl length.
  destruct (decide (x = root)) as [->|Hne].
  - destruct (decide (root ∈ l)) as [|_]; [done|].
    destruct (decide (root ∈ root :: l)) as [_|Hout]; [lia|].
    exfalso. apply Hout. left.
  - destruct (decide (root ∈ l)) as [Hin|Hnin].
    + destruct (decide (root ∈ x :: l)) as [_|Hout]; [lia|].
      exfalso. apply Hout. by right.
    + destruct (decide (root ∈ x :: l)) as [Hin'|_]; [|lia].
      apply elem_of_cons in Hin' as [|]; done.
Qed.

(** X17: a reduction of [count] elements over a model of [p] processes
    with fresh counters, the root calling the receiving overload of
    [model_reduce] and the others the sending one, counts as many bytes
    received at the root as the others count sent together,
    [(p - 1) * count * sizeof(T)], as long as that is below 2^64. *)
Theorem model_reduce_balance (sizeof_T count root p : Z) :
  0 < sizeof_T → 0 ≤ count → 0 ≤ root < p → p ≤ INT_MAX →
  sizeof_T * count * p < SIZE_MOD →
  let after :=
    rooted (model_reduce_array_root sizeof_T count)
           (model_reduce_array_send sizeof_T count root) root (model_of p) in
  total bytes_sent after = (p - 1) * count * sizeof_T
  ∧ total bytes_received after = (p - 1) * count * sizeof_T
  ∧ bytes_received <$> after
      = (fun i => if decide (i = root) then (p - 1) * count * sizeof_T else 0)
          <$> seqZ 0 p.
Proof.
  intros Hs Hc Hroot Hint Hlt. simpl.
  unfold rooted, model_of. rewrite <- list_fmap_compose.
  set (h := (fun c => if get_rank_in_model c =? root
                      then model_reduce_array_root sizeof_T count c
                      else model_reduce_array_send sizeof_T count root c)
            ∘ (fun i => mk_lbann_comm 1 p 0 i i 0 0 0 0 0)).
  assert (Hle1 : count ≤ sizeof_T * count) by nia.
  assert (Hle2 : 0 ≤ sizeof_T * count) by nia.
  assert (Hle3 : sizeof_T * count * (p - 1) ≤ sizeof_T * count * p) by nia.
  assert (Hle4 : sizeof_T * count ≤ sizeof_T * count * p) by nia.
  assert (Hle5 : 0 ≤ sizeof_T * count * (p - 1)) by nia.
  assert (Hcount : to_size_t count = count)
    by (apply to_size_t_small; lia).
  assert (Hsc : to_size_t (sizeof_T * count) = sizeof_T * count)
    by (apply to_size_t_small; lia).
  assert (Hp1 : to_size_t (p - 1) = p - 1)
    by (apply to_size_t_small; unfold SIZE_MOD, INT_MAX in *; lia).
  assert (Hall : to_size_t (sizeof_T * count * (p - 1))
                 = sizeof_T * count * (p - 1))
    by (apply to_size_t_small; lia).
  assert (Hsent : ∀ i, bytes_sent (h i)
                       = if decide (i = root) then 0 else sizeof_T * count).
  { intros i. unfold h. simpl. unfold get_rank_in_model. simpl.
    destruct (Z.eqb_spec i root), (decide (i = root)); try done; simpl.
    rewrite Hcount, Hsc, Z.add_0_l. apply Hsc. }
  assert (Hrecv : ∀ i, bytes_received (h i)
                       = if decide (i = root)
                         then (p - 1) * count * sizeof_T else 0).
  { intros i. unfold h. simpl. unfold get_rank_in_model. simpl.
    destruct (Z.eqb_spec i root), (decide (i = root)); try done; simpl.
    unfold get_procs_per_model. simpl.
    rewrite Hcount, Hsc, Hp1, Hall, Z.add_0_l, Hall. lia. }
  assert (Hin : root ∈ seqZ 0 p) by (apply elem_of_seqZ; lia).
  split; [|split].
  - rewrite (total_rooted bytes_sent h root (sizeof_T * count) 0)
      by (done || apply NoDup_seqZ).
    rewrite decide_True by done. rewrite length_seqZ. lia.
  - rewrite (total_rooted bytes_received h root 0 ((p - 1) * count * sizeof_T))
      by (done || apply NoDup_seqZ).
    rewrite decide_True by done. lia.
  - rewrite <- list_fmap_compose. apply list_fmap_ext.
    intros i x _. simpl. apply Hrecv.
Qed.

(** ** The further statements at concrete inputs *)

Lemma cursor_stays_in_range_witness :
  position_valid
    (update_n (G := Sample.cut_generator) 5 (1, Sample.late_reader)).1.2 = true.
Proof.
  apply (cursor_stays_in_range (G := Sample.cut_generator) 5
           (1, Sample.late_reader)).
  - vm_compute. split; [discriminate | reflexivity].
  - vm_compute. discriminate.
  - intros _. vm_compute. discriminate.
  - vm_compute. split; [discriminate | reflexivity].
Defined.

Lemma plain_pass_length_witness :
  (update_n (G := Sample.cut_generator) 3 (1, Sample.reader_of 25 10)).2
    = [true; true; false].
Proof.
  destruct (plain_pass_length (G := Sample.cut_generator)
              (1, Sample.reader_of 25 10)) as (Hrun & _).
  - reflexivity.
  - reflexivity.
  - vm_compute. reflexivity.
  - exact Hrun.
Defined.

Lemma select_subset_drops_old_unused_witness :
  let s' := select_subset_of_data (G := Sample.cut_generator) 2 true
              (1, set_unused_indices [7; 8] (Sample.reader_of 5 2)) in
  (7 ∉ ShuffledIndices s'.2) ∧ (7 ∉ m_unused_indices s'.2).
Proof.
  destruct (select_subset_drops_old_unused (G := Sample.cut_generator)
              (1, set_unused_indices [7; 8] (Sample.reader_of 5 2)) 2 true)
    as (_ & _ & Hgone).
  - vm_compute. discriminate.
  - reflexivity.
  - apply Hgone. apply (bool_decide_unpack _). vm_compute. exact I.
Defined.

Lemma select_subset_clamped_witness :
  let s' := select_subset_of_data (G := Sample.cut_generator) 9 false
              (1, set_unused_indices [7; 8] (Sample.reader_of 5 2)) in
  m_unused_indices s'.2 = []
  ∧ ShuffledIndices s'.2 ≡ₚ seqZ 0 5.
Proof.
  destruct (select_subset_clamped (G := Sample.cut_generator)
              (1, set_unused_indices [7; 8] (Sample.reader_of 5 2)) 9 false)
    as (Hunused & Hused & _).
  - vm_compute. discriminate.
  - reflexivity.
  - vm_compute. discriminate.
  - split; [exact Hunused | exact Hused].
Defined.

Lemma trim_to_zero_keeps_all_witness :
  trim_data_set (G := Sample.cut_generator) (Sample.fraction 1 2000) false
      (1, Sample.reader_of 1000 10)
    = ((1, Sample.reader_of 1000 10), Ret 1000).
Proof.
  apply (trim_to_zero_keeps_all (G := Sample.cut_generator)
           (1, Sample.reader_of 1000 10) (Sample.fraction 1 2000) false).
  - vm_compute. discriminate.
  - vm_compute. reflexivity.
Defined.

Lemma setup_effect_witness :
  ∃ s', setup (G := Sample.cut_generator) 0 10 0 None (1, Sample.late_reader)
          = Ret s'
        ∧ CurrentPos s'.2 = 0
        ∧ m_use_alt_last_mini_batch_size s'.2 = true.
Proof.
  destruct (setup_effect (G := Sample.cut_generator) 0 10 0 None
              (1, Sample.late_reader)) as [Hret Heff].
  destruct (Hret eq_refl) as [s' Hs'].
  destruct (Heff s' Hs') as (Hpos & _ & _ & _ & _ & _ & _ & Halt & _).
  exists s'. split; [exact Hs'|]. split; [exact Hpos | exact Halt].
Defined.

Lemma distribution_defined_witness :
  ∃ r', calculate_multi_model_data_distribution Sample.single
          (Sample.reader_of 1005 10) = Ret r'.
Proof.
  apply (distribution_defined Sample.single (Sample.reader_of 1005 10)).
  vm_compute. repeat split; discriminate.
Defined.

Lemma last_mini_batches_tile_witness :
  ∃ r',
    calculate_multi_model_data_distribution Sample.second_of_two
      (set_offsets 10 20 0 (Sample.reader_of 1005 10)) = Ret r'
    ∧ m_last_mini_batch_threshold r' = 1000
    ∧ get_next_position (set_CurrentPos 990 (set_use_alt true r')) = 1003
    ∧ getBatchSize (set_CurrentPos 1003 (set_use_alt true r')) = 2.
Proof.
  destruct (last_mini_batches_tile Sample.second_of_two
              (set_offsets 10 20 0 (Sample.reader_of 1005 10)) 2)
    as (r' & Hr' & HT & _ & _ & _ & _ & Hnext & Hsize & _).
  - vm_compute. discriminate.
  - reflexivity.
  - reflexivity.
  - reflexivity.
  - reflexivity.
  - vm_compute. split; [discriminate | reflexivity].
  - vm_compute. split; [discriminate | reflexivity].
  - vm_compute. split; discriminate.
  - exists r'. split; [exact Hr'|]. split; [exact HT|].
    split; [exact Hnext | exact Hsize].
Defined.

Lemma load_failure_witness :
  (load (IO := Sample.sample_io) "" "missing.txt" Sample.loaded_tail).2 = false
  ∧ (fetch_label (IO := Sample.sample_io)
       (load (IO := Sample.sample_io) "" "missing.txt" Sample.loaded_tail).1
       ∅).2 = Undefined.
Proof.
  destruct (load_failure (IO := Sample.sample_io) "" "missing.txt"
              Sample.loaded_tail ∅ ∅) as (Hret & _ & _ & _ & Hfetch).
  - reflexivity.
  - split; [exact Hret|]. apply Hfetch.
    + vm_compute. discriminate.
    + vm_compute. split; [discriminate | reflexivity].
    + reflexivity.
Defined.

Lemma load_count_success_witness :
  let res := load_count (IO := Sample.sample_io) (G := Sample.cut_generator)
               "" "train.txt" 2 true (1, Sample.small_imagenet 2) in
  res.2 = Ret true
  ∧ ShuffledIndices (base res.1.2) = [0; 1]
  ∧ m_unused_indices (base res.1.2) = [2; 3; 4].
Proof.
  destruct (load_count_success (IO := Sample.sample_io)
              (G := Sample.cut_generator) "" "train.txt" 2 true
              (1, Sample.small_imagenet 2) Sample.catalog)
    as (Hret & _ & _ & _ & Hfirst).
  - reflexivity.
  - vm_compute. discriminate.
  - vm_compute. split; [reflexivity | discriminate].
  - destruct (Hfirst eq_refl) as (_ & Hused & Hunused).
    split; [exact Hret|]. split; [exact Hused | exact Hunused].
Defined.

Lemma load_count_too_many_witness :
  let res := load_count (IO := Sample.sample_io) (G := Sample.cut_generator)
               "" "train.txt" 9 true (1, Sample.small_imagenet 2) in
  res.2 = Throw "ImageNet: data reader load error: invalid number of samples selected"
  ∧ ShuffledIndices (base res.1.2) = [0; 1; 2; 3; 4].
Proof.
  destruct (load_count_too_many (IO := Sample.sample_io)
              (G := Sample.cut_generator) "" "train.txt" 9 true
              (1, Sample.small_imagenet 2) Sample.catalog)
    as (Hret & _ & _ & Hused & _).
  - reflexivity.
  - vm_compute. discriminate.
  - vm_compute. split; reflexivity.
  - split; [exact Hret | exact Hused].
Defined.

Lemma load_percentage_is_load_then_trim_witness :
  (load_percentage (IO := Sample.sample_io) (G := Sample.cut_generator)
     "" "train.txt" (Sample.fraction 2 5) true
     (1, Sample.small_imagenet 2)).2 = Ret true.
Proof.
  destruct (load_percentage_is_load_then_trim (IO := Sample.sample_io)
              (G := Sample.cut_generator) "" "train.txt" (Sample.fraction 2 5)
              true (1, Sample.small_imagenet 2)) as (_ & _ & Hret & _).
  apply Hret. exists 2. vm_compute. reflexivity.
Defined.

Lemma fetch_data_decode_failure_witness :
  ∃ r' X',
    fetch_data (IO := Sample.broken_io) Sample.loaded_three ∅
      = (r', X', Throw "ImageNet: image_utils::loadJPG fauled to load")
    ∧ X' !! (0, 1) = Some (5 / 255)%Q
    ∧ X' !! (0, 2) = None.
Proof.
  destruct (fetch_data_decode_failure (IO := Sample.broken_io)
              Sample.loaded_three ∅ 2 false 0 0 [])
    as (r' & X' & HX' & _ & Hlook).
  - vm_compute. discriminate.
  - unfold indices_in_catalog. vm_compute. repeat constructor; discriminate.
  - vm_compute. discriminate.
  - vm_compute. split; [discriminate | reflexivity].
  - vm_compute. reflexivity.
  - intros j Hj. assert (j = 0 ∨ j = 1) as [-> | ->] by lia;
      (eexists; split; [reflexivity | vm_compute; discriminate]).
  - reflexivity.
  - left. reflexivity.
  - exists r', X'. split; [exact HX'|].
    split; [exact (Hlook 0 1) | exact (Hlook 0 2)].
Defined.

Lemma world_rank_unique_witness :
  get_world_rank Sample.second_of_two 3 1 `div` 2 = 3
  ∧ get_world_rank Sample.second_of_two 3 1 `mod` 2 = 1.
Proof.
  destruct (world_rank_unique Sample.second_of_two 3 1 3 1) as (Hd & Hm & _).
  - vm_compute. split; [discriminate | reflexivity].
  - split; [exact Hd | exact Hm].
Defined.

Lemma model_reduce_balance_witness :
  let after :=
    rooted (model_reduce_array_root 4 3) (model_reduce_array_send 4 3 1) 1
           (model_of 4) in
  total bytes_sent after = 36 ∧ total bytes_received after = 36.
Proof.
  destruct (model_reduce_balance 4 3 1 4) as (Hsent & Hrecv & _).
  - reflexivity.
  - discriminate.
  - split; [discriminate | reflexivity].
  - vm_compute. discriminate.
  - reflexivity.
  - split; [exact Hsent | exact Hrecv].
Defined.

(** ** An epoch of a single reader *)

Section Epoch.

Context `{G : Generator}.

Implicit Types (s : rng_gen * DataReader) (r : DataReader).

Lemma shuffle_indices_pos s :
  CurrentPos (shuffle_indices s).2 = CurrentPos s.2.
Proof. unfold shuffle_indices. by destruct (std_shuffle _ _). Qed.

Lemma update_n_snoc (i : nat) s :
  update_n (S i) s
    = ((update (update_n i s).1).1,
       (update_n i s).2 ++ [(update (update_n i s).1).2]).
Proof.
  revert s. induction i as [|i IH]; intros s.
  - rewrite update_n_S. done.
  - rewrite update_n_S, IH, (update_n_S i). done.
Qed.

(** Calls that stay at or below the threshold and below the number of
    used indices move the cursor by the stride. *)
Lemma full_stride_run (i : nat) s :
  0 < m_stride s.2 →
  (m_use_alt_last_mini_batch_size s.2 = true →
     CurrentPos s.2 + Z.of_nat i * m_stride s.2 ≤ m_last_mini_batch_threshold s.2) →
  CurrentPos s.2 + Z.of_nat i * m_stride s.2 < getNumData s.2 →
  update_n i s
    = ((s.1, set_CurrentPos (CurrentPos s.2 + Z.of_nat i * m_stride s.2) s.2),
       replicate i true).
Proof.
  revert s. induction i as [|i IH]; intros s Hs Halt Hlt.
  - simpl. destruct s as [g r]. simpl. do 2 f_equal.
    destruct r. unfold set_CurrentPos. simpl. f_equal. lia.
  - assert (Hnext : get_next_position s.2 = CurrentPos s.2 + m_stride s.2).
    { unfold get_next_position.
      destruct (m_use_alt_last_mini_batch_size s.2); [|done]. simpl.
      specialize (Halt eq_refl).
      destruct (Z.gtb_spec (CurrentPos s.2 + m_stride s.2)
                  (m_last_mini_batch_threshold s.2)); [nia|done]. }
    assert (Hb : (update s).2 = true).
    { rewrite update_returns, Hnext. apply Z.ltb_lt. nia. }
    rewrite update_n_S, Hb, (update_true s Hb), Hnext.
    rewrite IH; [|done| |].
    + unfold set_CurrentPos. simpl.
      replace (CurrentPos s.2 + m_stride s.2 + Z.of_nat i * m_stride s.2)
        with (CurrentPos s.2 + Z.of_nat (S i) * m_stride s.2) by lia.
      done.
    + intros Ha. specialize (Halt Ha).
      change (CurrentPos s.2 + m_stride s.2 + Z.of_nat i * m_stride s.2
              ≤ m_last_mini_batch_threshold s.2). nia.
    + change (CurrentPos s.2 + m_stride s.2 + Z.of_nat i * m_stride s.2
              < getNumData s.2). nia.
Qed.

(** X18: an epoch of a single process that is its own model and the
    world master, set up with a communicator, offsets 0 and the batch
    size as stride, over [n > 0] used indices: [setup] returns; the
    cursor visits [0, B, 2B, ..] while [update()] returns [true], which
    it does [(n - 1) / B] times before it returns [false]; at each
    position visited [getBatchSize()] is the batch size, or what is left
    of the used indices if that is less, so that the batches cover the
    used positions once each and no batch reaches past the last one. *)
Theorem single_reader_epoch (comm : lbann_comm) s :
  fits_int s.2 → 0 < BatchSize s.2 → 0 < getNumData s.2 →
  get_num_models comm = 1 → get_model_rank comm = 0 →
  get_rank_in_model comm = 0 → am_world_master comm = true →
  let n := getNumData s.2 in
  let B := BatchSize s.2 in
  let k := Z.to_nat ((n - 1) `div` B) in
  ∃ s0,
    setup 0 B 0 (Some comm) s = Ret s0
    ∧ (update_n (S k) s0).2 = replicate k true ++ [false]
    ∧ (∀ i : nat, (i ≤ k)%nat →
         CurrentPos (update_n i s0).1.2 = Z.of_nat i * B
         ∧ getBatchSize (update_n i s0).1.2 = Z.min B (n - Z.of_nat i * B))
    ∧ Z.of_nat k * B < n ≤ Z.of_nat k * B + B.
Proof.
  intros Hfit HB Hn HM Hm Hj Hw n B k.
  set (r0 := set_offsets 0 B 0 s.2).
  set (T := B * (n `div` B)).
  assert (Hclosed := distribution_closed_form comm r0 1).
  simpl in Hclosed. rewrite HM, Hj, Hw in Hclosed.
  unfold reader_index in Hclosed. rewrite Hm, Hj in Hclosed.
  change (getNumData r0) with n in Hclosed.
  change (BatchSize s.2) with B in Hclosed.
  fold T in Hclosed.
  specialize (Hclosed Hfit HB ltac:(lia) ltac:(lia) ltac:(lia) ltac:(lia)).
  rewrite Z.mul_0_l, Z.add_0_l, Z.mul_1_l, Z.div_1_r, Z.mod_1_r in Hclosed.
  rewrite !Z.add_0_r, Z.sub_0_r, Z.mul_0_r, Z.mul_1_r, Z.add_0_r in Hclosed.
  set (r1 := set_last_mini_batch T (n - T) B r0) in Hclosed.
  set (r2 := set_CurrentPos 0 (set_use_alt true r1)).
  set (s0 := if m_shuffle r2 =? 0 then (s.1, r2) else shuffle_indices (s.1, r2)).
  assert (Hsetup : setup 0 B 0 (Some comm) s = Ret s0).
  { unfold setup. fold r0. simpl. rewrite Hclosed. done. }
  assert (Hsame : same_setup r2 s0.2).
  { unfold s0. destruct (m_shuffle r2 =? 0).
    - apply same_setup_refl.
    - apply (shuffle_indices_same_setup (s.1, r2)). }
  assert (Hpos0 : CurrentPos s0.2 = 0).
  { unfold s0. destruct (m_shuffle r2 =? 0); [done|].
    by rewrite shuffle_indices_pos. }
  destruct Hsame as (HB0&_&HS0&_&_&Ha0&HT0&Hz0&Hl0&Hp0&_).
  simpl in HB0, HS0, Ha0, HT0, Hz0, Hl0.
  assert (Hn0 : getNumData s0.2 = n) by (by apply getNumData_perm).
  assert (HTle : T ≤ n < T + B).
  { unfold T. pose proof (Z.mul_div_le n B HB).
    pose proof (Z.mul_succ_div_gt n B HB). lia. }
  set (d := (n - 1) `div` B) in *.
  assert (Hd : 0 ≤ d) by (apply Z.div_pos; lia).
  assert (Hk : Z.of_nat k = d) by (unfold k; lia).
  assert (Hdlo : d * B ≤ n - 1).
  { pose proof (Z.mul_div_le (n - 1) B HB). fold d in H. lia. }
  assert (Hdhi : n - 1 < (d + 1) * B).
  { pose proof (Z.mul_succ_div_gt (n - 1) B HB). fold d in H. lia. }
  assert (HdT : d * B ≤ T).
  { assert (d ≤ n `div` B) by (apply Z.div_le_mono; lia). unfold T. nia. }
  assert (Hrun : ∀ i : nat, (i ≤ k)%nat →
            update_n i s0
            = ((s0.1, set_CurrentPos (Z.of_nat i * B) s0.2), replicate i true)).
  { intros i Hi.
    rewrite (full_stride_run i s0); rewrite ?HS0, ?Hpos0, ?HT0, ?Hn0.
    - by rewrite Z.add_0_l.
    - lia.
    - intros _. nia.
    - nia. }
  set (sk := (s0.1, set_CurrentPos (Z.of_nat k * B) s0.2)).
  assert (Hfalse : (update sk).2 = false).
  { rewrite update_returns. apply Z.ltb_ge.
    unfold get_next_position, sk. simpl.
    change (getNumData (set_CurrentPos _ s0.2)) with (getNumData s0.2).
    rewrite Ha0, HS0, HT0, Hl0, Hn0. simpl.
    destruct (_ >? _); nia. }
  exists s0. split; [done|]. split; [|split].
  - rewrite update_n_snoc, (Hrun k) by lia. simpl. fold sk. by rewrite Hfalse.
  - intros i Hi. rewrite (Hrun i Hi). simpl. split; [done|].
    unfold getBatchSize. simpl. rewrite Ha0, HT0, Hz0, HB0. simpl.
    assert (Hi' : Z.of_nat i * B ≤ d * B) by nia.
    destruct (Z.geb_spec (Z.of_nat i * B) T) as [Hge|Hlt].
    + lia.
    + assert (Z.of_nat i < n `div` B) by (unfold T in Hlt; nia).
      assert (Z.of_nat i * B + B ≤ T) by (unfold T; nia).
      lia.
  - nia.
Qed.

End Epoch.

Lemma single_reader_epoch_witness :
  ∃ s0,
    setup (G := Sample.cut_generator) 0 10 0 (Some Sample.single)
      (1, Sample.reader_of 25 10) = Ret s0
    ∧ (update_n 3 s0).2 = [true; true; false]
    ∧ getBatchSize (update_n 2 s0).1.2 = 5.
Proof.
  destruct (single_reader_epoch (G := Sample.cut_generator) Sample.single
              (1, Sample.reader_of 25 10))
    as (s0 & Hs0 & Hrun & Hvisit & _).
  - vm_compute. discriminate.
  - reflexivity.
  - vm_compute. reflexivity.
  - reflexivity.
  - reflexivity.
  - reflexivity.
  - reflexivity.
  - exists s0. split; [exact Hs0|]. split; [exact Hrun|].
    exact (proj2 (Hvisit 2%nat (le_n 2))).
Defined.
